(** * Notification-settings utilities: a shallow embedding and its properties

    The embedded module is the notification-settings helper file of the
    settings views ([ALL_PROVIDERS], [backfillMissingProvidersWithFallback],
    [mergeNotificationSettings], [decideDefault], the [getStateToPutFor...]
    builders).

    Modelling conventions.
    - A JavaScript object is an association list of its own enumerable
      string-keyed properties, kept in the order in which [Object.keys],
      [Object.values] and [Object.entries] enumerate them: array-index keys
      first, in ascending numeric order, then the other keys in insertion
      order.  [obj_set] is property assignment and maintains that order.
    - A property read [o[k]] finds an own property or, through the
      prototype chain, one of the names every object inherits from
      [Object.prototype] ([inherited_names]).  Where the code only looks for
      [user], [project] or [organization] below the value read, an inherited
      value and an absent one behave alike and the read is an own-property
      lookup; where the code enumerates the value read
      ([getStateToPutForProvider]) the two cases are told apart.
    - [undefined] is [None]; a thrown [TypeError] is the [Throw] result.
    - Levels are plain strings, as in the source. *)

From Stdlib Require Import List String Ascii ZArith NArith Bool Lia Sorted
  Permutation.
Import ListNotations.
Open Scope string_scope.

(** ** JavaScript objects as ordered property lists *)

Module JsObject.

Definition obj (A : Type) : Type := list (string * A).

Definition is_digit (c : ascii) : bool :=
  let n := N_of_ascii c in ((48 <=? n) && (n <=? 57))%N.

Fixpoint digits_value (acc : N) (s : string) : option N :=
  match s with
  | EmptyString => Some acc
  | String c s' =>
      if is_digit c
      then digits_value (10 * acc + (N_of_ascii c - 48))%N s'
      else None
  end.

(** An array index is the canonical decimal form of an integer in
    [0, 2^32 - 2]: no sign, no leading zero. *)
Definition array_index (s : string) : option N :=
  match s with
  | EmptyString => None
  | String c rest =>
      if (Ascii.eqb c "0" && negb (String.eqb rest ""))%bool then None
      else match digits_value 0 s with
           | Some n => if (n <=? 4294967294)%N then Some n else None
           | None => None
           end
  end.

(** [key_before k k'] : a new key [k] is enumerated before the existing
    key [k']. *)
Definition key_before (k k' : string) : bool :=
  match array_index k, array_index k' with
  | Some i, Some j => (i <? j)%N
  | Some _, None => true
  | None, _ => false
  end.

Section Ops.
Context {A : Type}.

(** [o[k]] for an own property. *)
Fixpoint lookup (k : string) (o : obj A) : option A :=
  match o with
  | [] => None
  | (k', v) :: o' => if String.eqb k k' then Some v else lookup k o'
  end.

Definition has_own (k : string) (o : obj A) : bool :=
  match lookup k o with Some _ => true | None => false end.

Fixpoint replace (k : string) (v : A) (o : obj A) : obj A :=
  match o with
  | [] => []
  | (k', v') :: o' =>
      if String.eqb k k' then (k', v) :: o' else (k', v') :: replace k v o'
  end.

Fixpoint insert_new (k : string) (v : A) (o : obj A) : obj A :=
  match o with
  | [] => [(k, v)]
  | (k', v') :: o' =>
      if key_before k k' then (k, v) :: o else (k', v') :: insert_new k v o'
  end.

(** [o[k] = v] *)
Definition obj_set (k : string) (v : A) (o : obj A) : obj A :=
  if has_own k o then replace k v o else insert_new k v o.

(** [Object.fromEntries(entries)] *)
Definition fromEntries (entries : list (string * A)) : obj A :=
  fold_left (fun o kv => obj_set (fst kv) (snd kv) o) entries [].

Definition keys (o : obj A) : list string := map fst o.
Definition values (o : obj A) : list A := map snd o.
Definition entries (o : obj A) : list (string * A) := o.
End Ops.

(** [xs.pop()] as an expression: the last element, [undefined] when empty. *)
Fixpoint pop {A : Type} (xs : list A) : option A :=
  match xs with
  | [] => None
  | [x] => Some x
  | _ :: xs' => pop xs'
  end.

(** [xs.includes(x)] on strings. *)
Definition includes (xs : list string) (x : string) : bool :=
  existsb (String.eqb x) xs.

(** [o || {}] for an object-or-undefined [o]; every object is truthy. *)
Definition or_empty {A : Type} (o : option (obj A)) : obj A :=
  match o with Some x => x | None => [] end.

(** [xs.sort(compare)]: a stable sort.  The comparator returns a number or
    [NaN] ([None]); as in [Array.prototype.sort], [NaN] counts as [+0].
    For a consistent comparator (for [decideDefault]: a list of levels, or
    a list in which every comparison is [NaN]) every stable sort returns
    this list.  For an inconsistent one (levels mixed with other strings)
    ECMAScript leaves the order to the implementation and engines differ
    from this definition and from each other; no theorem below reads the
    sorted list of such an input. *)
Section Sort.
Context {A : Type} (compare : A -> A -> option Z).

Definition comes_after (a b : A) : bool :=
  match compare a b with
  | Some v => (0 <? v)%Z
  | None => false
  end.

Fixpoint sort_insert (x : A) (l : list A) : list A :=
  match l with
  | [] => [x]
  | y :: l' => if comes_after x y then y :: sort_insert x l' else x :: l
  end.

Definition sort (l : list A) : list A := fold_right sort_insert [] l.
End Sort.

(** [s.split(sep)] for a one-character separator. *)
Fixpoint split (sep : ascii) (s : string) : list string :=
  match s with
  | EmptyString => [""]
  | String c s' =>
      if Ascii.eqb c sep then "" :: split sep s'
      else match split sep s' with
           | [] => [String c ""]
           | t :: ts => String c t :: ts
           end
  end.

(** [xs.join(sep)] *)
Definition join (sep : string) (xs : list string) : string :=
  String.concat sep xs.

(** [xs.flatMap(f)] *)
Definition flatMap {A B : Type} (f : A -> list B) (xs : list A) : list B :=
  flat_map f xs.

Definition inherited_names : list string :=
  [ "constructor"; "__proto__"; "hasOwnProperty"; "isPrototypeOf";
    "propertyIsEnumerable"; "toLocaleString"; "toString"; "valueOf";
    "__defineGetter__"; "__defineSetter__"; "__lookupGetter__";
    "__lookupSetter__" ].

End JsObject.
Import JsObject.

(** ** lodash [set]

    [output] in [mergeNotificationSettings] is an untyped object, and the
    dotted path handed to [set] decides how deep it is written, so the
    values [set] works on are untyped: a string, an object, or the Array
    that [set] creates where the next path segment is an index.  An Array
    is given by its own enumerable properties; its [length] is implied by
    them.

    [set] is modelled where its result is a value of this kind and [None]
    is returned elsewhere:
    - a path with a bracket ([stringToPath] parses bracketed and quoted
      segments, which are not modelled);
    - the segments [__proto__], [constructor] and [prototype] (what
      [baseSet] does with them depends on the lodash version);
    - a segment before the last that is not an own property of the value
      reached but is inherited by it: lodash then writes on the shared
      built-in found through the prototype chain;
    - [length] on an Array, before the last segment (as above) or as the
      last one (the assignment throws a [RangeError]).
    The trees handed to [mergeNotificationSettings] are assumed to share no
    object with each other. *)

Module Lodash.

#[local] Set Warnings "-register-all".

Inductive jsval : Type :=
| JStr (s : string)
| JObj (props : obj jsval)
| JArr (props : obj jsval).

Inductive kind : Type := Object | Array.

Definition wrap (k : kind) (props : obj jsval) : jsval :=
  match k with
  | Object => JObj props
  | Array => JArr props
  end.

Definition contains (c : ascii) (s : string) : bool :=
  existsb (fun x => Ascii.eqb x c) (list_ascii_of_string s).

(** lodash's [stringToPath] on a string without brackets: the segments
    between the dots, empty segments included. *)
Definition stringToPath (path : string) : list string := split "." path.

(** [castPath(path, object)]: a string without path syntax, or one that is
    itself a property of [object], is a single key. *)
Definition castPath (path : string) (object : obj jsval)
  : option (list string) :=
  if (contains "[" path || contains "]" path)%bool then None
  else if (negb (contains "." path) || has_own path object)%bool
       then Some [path]
       else Some (stringToPath path).

Definition unsafe_key (key : string) : bool :=
  includes ["__proto__"; "constructor"; "prototype"] key.

(** lodash's [isIndex] on a string: the canonical decimal form of an
    integer below [2^53 - 1]. *)
Definition isIndex (s : string) : bool :=
  match s with
  | EmptyString => false
  | String c rest =>
      if (Ascii.eqb c "0" && negb (String.eqb rest ""))%bool then false
      else match digits_value 0 s with
           | Some n => (n <? 9007199254740991)%N
           | None => false
           end
  end.

(** The property names of [Array.prototype], of any edition. *)
Definition array_prototype_names : list string :=
  [ "at"; "concat"; "copyWithin"; "entries"; "every"; "fill"; "filter";
    "find"; "findIndex"; "findLast"; "findLastIndex"; "flat"; "flatMap";
    "forEach"; "includes"; "indexOf"; "join"; "keys"; "lastIndexOf"; "map";
    "pop"; "push"; "reduce"; "reduceRight"; "reverse"; "shift"; "slice";
    "some"; "sort"; "splice"; "toReversed"; "toSorted"; "toSpliced";
    "unshift"; "values"; "with" ].

(** [key] names something a value of kind [k] has beside its own
    enumerable properties. *)
Definition inherited (k : kind) (key : string) : bool :=
  match k with
  | Object => includes inherited_names key
  | Array =>
      includes ("length" :: array_prototype_names ++ inherited_names)%list key
  end.

(** What [baseSet] creates for a missing segment. *)
Definition fresh (next : string) : kind * obj jsval :=
  (if isIndex next then Array else Object, []).

(** [nested[key]] as the walk of [baseSet] goes on from it: the object or
    Array found there, a new one where there is none or a string, and
    [None] where the read goes to the prototype chain. *)
Definition nested_at (k : kind) (next key : string) (object : obj jsval)
  : option (kind * obj jsval) :=
  match lookup key object with
  | Some (JObj o) => Some (Object, o)
  | Some (JArr o) => Some (Array, o)
  | Some (JStr _) => Some (fresh next)
  | None => if inherited k key then None else Some (fresh next)
  end.

(** [baseSet]: walk the path from the value [object] of kind [k], reusing
    what is found at each segment and creating what is missing; assign the
    value at the last segment. *)
Fixpoint baseSet (path : list string) (value : jsval) (k : kind)
    (object : obj jsval) : option (obj jsval) :=
  match path with
  | [] => Some object
  | key :: rest =>
      if unsafe_key key then None
      else
        match rest with
        | [] =>
            match k with
            | Array =>
                if key =? "length" then None
                else Some (obj_set key value object)
            | Object => Some (obj_set key value object)
            end
        | next :: _ =>
            match nested_at k next key object with
            | Some (k', nested) =>
                match baseSet rest value k' nested with
                | Some nested' => Some (obj_set key (wrap k' nested') object)
                | None => None
                end
            | None => None
            end
        end
  end.

Definition set (object : obj jsval) (path : string) (value : jsval)
  : option (obj jsval) :=
  match castPath path object with
  | Some keys => baseSet keys value Object object
  | None => None
  end.

(** The own enumerable properties of a value. *)
Definition props_of (v : jsval) : obj jsval :=
  match v with
  | JObj props | JArr props => props
  | JStr _ => []
  end.

(** The own enumerable properties found below [key]. *)
Definition child (key : string) (object : obj jsval) : obj jsval :=
  match lookup key object with
  | Some v => props_of v
  | None => []
  end.

(** The own enumerable property at the path [k1], [k2], [k3], as a walk
    with [Object.entries] finds it. *)
Definition own3 (object : obj jsval) (k1 k2 k3 : string) : option jsval :=
  lookup k3 (child k2 (child k1 object)).

End Lodash.

(** ** The notification-settings module *)

Module NotificationSettings.
Import Lodash.

Definition ALL_PROVIDERS : obj string :=
  [("email", "default"); ("slack", "never")].

(** provider -> level *)
Definition ProviderSettings : Type := obj string.

(** type -> scope type -> scope id -> provider -> level *)
Definition NotificationSettingsObject : Type :=
  obj (obj (obj ProviderSettings)).

Inductive error : Type := TypeError.

Inductive result (A : Type) : Type :=
| Ok (a : A)
| Throw (e : error).
Arguments Ok {A} a.
Arguments Throw {A} e.

Definition isGroupedByProject (notificationType : string) : bool :=
  includes ["alerts"; "email"; "workflow"] notificationType.

Definition getParentKey (notificationType : string) : string :=
  if isGroupedByProject notificationType then "project" else "organization".

Definition getFallBackValue (notificationType : string) : string :=
  if notificationType =? "alerts" then "always"
  else if notificationType =? "deploy" then "committed_only"
  else if notificationType =? "workflow" then "subscribe_only"
  else "".

(** First pass of the backfill: determine the fallback value. *)
Definition fallback (data : ProviderSettings) (fallbackValue : string)
  : string :=
  fold_left
    (fun previousValue currentValue =>
       if currentValue =? "never" then previousValue else currentValue)
    (values data) fallbackValue.

Definition backfillMissingProvidersWithFallback
    (data : ProviderSettings) (providerList : list string)
    (fallbackValue : string) (scopeType : string) : ProviderSettings :=
  let fallback := fallback data fallbackValue in
  (* Second pass: fill in values for every provider. *)
  fromEntries
    (map (fun provider =>
            (provider,
             if includes providerList provider then fallback
             else if scopeType =? "user" then "never"
             else "default"))
         (keys ALL_PROVIDERS)).

(** A provider mapping as the untyped value that [set] stores. *)
Definition js_of_settings (settingsByProvider : ProviderSettings) : jsval :=
  JObj (map (fun '(provider, value) => (provider, JStr value))
            settingsByProvider).

(** [output] is threaded through the four nested loops; it is [None] once
    a call of [set] is outside what [Lodash.set] models. *)
Definition mergeNotificationSettings
    (objects : list NotificationSettingsObject) : option (obj jsval) :=
  let output : option (obj jsval) := Some [] in
  fold_left (fun output settingsByType =>
    fold_left (fun output '(type, settingsByScopeType) =>
      fold_left (fun output '(scopeType, settingsByScopeId) =>
        fold_left (fun output '(scopeId, settingsByProvider) =>
          match output with
          | Some output =>
              set output (join "." [type; scopeType; scopeId])
                  (js_of_settings settingsByProvider)
          | None => None
          end)
          (entries settingsByScopeId) output)
        (entries settingsByScopeType) output)
      (entries settingsByType) output)
    objects output.

(** [notificationSettings[notificationType]?.[scope] || {}] *)
Definition scopeData (notificationSettings : NotificationSettingsObject)
    (notificationType scope : string) : obj ProviderSettings :=
  or_empty
    (match lookup notificationType notificationSettings with
     | Some settingsByScopeType => lookup scope settingsByScopeType
     | None => None
     end).

Definition getUserDefaultValues (notificationType : string)
    (notificationSettings : NotificationSettingsObject) : ProviderSettings :=
  match pop (values (scopeData notificationSettings notificationType "user")) with
  | Some userData => userData
  | None =>
      fromEntries
        (map (fun '(provider, value) =>
                (provider,
                 if value =? "default"
                 then getFallBackValue notificationType
                 else value))
             (entries ALL_PROVIDERS))
  end.

Definition getCurrentProviders (notificationType : string)
    (notificationSettings : NotificationSettingsObject) : list string :=
  let userData := getUserDefaultValues notificationType notificationSettings in
  map fst
    (filter (fun '(_, value) => negb (includes ["never"] value))
            (entries userData)).

(** These values are stolen from the DB. *)
Definition mapping : obj Z :=
  [("default", 0); ("never", 10); ("always", 20);
   ("subscribe_only", 30); ("committed_only", 40)]%Z.

(** [mapping[a] - mapping[b]]; [NaN] when either read is not a number. *)
Definition compare (a b : string) : option Z :=
  match lookup a mapping, lookup b mapping with
  | Some x, Some y => Some (x - y)%Z
  | _, _ => None
  end.

(** [popped || otherwise] for a string-or-undefined [popped]: the empty
    string is falsy as well. *)
Definition or_string (popped : option string) (otherwise : string) : string :=
  match popped with
  | Some s => if s =? "" then otherwise else s
  | None => otherwise
  end.

Definition parentIndependentSetting (notificationType : string)
    (notificationSettings : NotificationSettingsObject) : string :=
  or_string
    (pop (sort compare
            (values (getUserDefaultValues notificationType notificationSettings))))
    "never".

Definition parentSpecificSetting (notificationType : string)
    (notificationSettings : NotificationSettingsObject) : string :=
  or_string
    (pop (sort compare
            (flatMap (fun settingsByProvider => values settingsByProvider)
               (values (scopeData notificationSettings notificationType
                          (getParentKey notificationType))))))
    "default".

Definition decideDefault (notificationType : string)
    (notificationSettings : NotificationSettingsObject) : string :=
  if negb (parentIndependentSetting notificationType notificationSettings
           =? "never")
  then parentIndependentSetting notificationType notificationSettings
  else
    if parentSpecificSetting notificationType notificationSettings =? "default"
    then "never"
    else parentSpecificSetting notificationType notificationSettings.

Definition isEverythingDisabled (notificationType : string)
    (notificationSettings : NotificationSettingsObject) : bool :=
  includes ["never"; "default"]
    (decideDefault notificationType notificationSettings).

Definition getParentIds (notificationType : string)
    (notificationSettings : NotificationSettingsObject) : list string :=
  keys (scopeData notificationSettings notificationType
          (getParentKey notificationType)).

(** [Object.fromEntries(providerList.map(provider => [provider, value]))] *)
Definition forProviders {A : Type} (providerList : list string) (value : A)
  : obj A :=
  fromEntries (map (fun provider => (provider, value)) providerList).

Definition getStateToPutForProvider (notificationType : string)
    (notificationSettings : NotificationSettingsObject)
    (changedData : obj string) : result NotificationSettingsObject :=
  match lookup "provider" changedData with
  | None => Throw TypeError   (* [undefined.split] *)
  | Some provider =>
      let providerList := split "+" provider in
      let fallbackValue := getFallBackValue notificationType in
      if negb (Nat.eqb (List.length (keys notificationSettings)) 0)
      then
        match lookup notificationType notificationSettings with
        | None =>
            if includes inherited_names notificationType
            then
              (* an inherited function or [Object.prototype]: it has no
                 enumerable property of its own *)
              Ok [(notificationType, fromEntries [])]
            else Throw TypeError   (* [Object.entries(undefined)] *)
        | Some settingsByScopeType =>
            Ok [(notificationType,
                 fromEntries
                   (map (fun '(scopeType, scopeTypeData) =>
                           (scopeType,
                            fromEntries
                              (map (fun '(scopeId, scopeIdData) =>
                                      (scopeId,
                                       backfillMissingProvidersWithFallback
                                         scopeIdData providerList
                                         fallbackValue scopeType))
                                   (entries scopeTypeData))))
                        (entries settingsByScopeType)))]
        end
      else
        (* If the user has no settings, we need to create them. *)
        Ok [(notificationType,
             [("user", [("me", forProviders providerList fallbackValue)])])]
  end.

(** [Object.values(changedData)[0]]; [undefined] for an empty object.  The
    patches of the two builders below hold that value at their leaves. *)
Definition firstValue (changedData : obj string) : option string :=
  hd_error (values changedData).

Definition Patch : Type := obj (obj (obj (obj (option string)))).

(** [value === s] for a string-or-undefined [value]. *)
Definition strictEquals (value : option string) (s : string) : bool :=
  match value with
  | Some v => v =? s
  | None => false
  end.

Definition getStateToPutForDefault (notificationType : string)
    (notificationSettings : NotificationSettingsObject)
    (changedData : obj string) (parentIds : list string) : Patch :=
  let newValue := firstValue changedData in
  let providerList :=
    getCurrentProviders notificationType notificationSettings in
  let providerList :=
    if Nat.eqb (List.length providerList) 0 then ["email"] else providerList in
  let settingsByScopeType :=
    [("user", [("me", forProviders providerList newValue)])] in
  let settingsByScopeType :=
    if strictEquals newValue "never"
    then
      obj_set (getParentKey notificationType)
        (fromEntries
           (map (fun parentId =>
                   (parentId, forProviders providerList (Some "default")))
                parentIds))
        settingsByScopeType
    else settingsByScopeType in
  [(notificationType, settingsByScopeType)].

Definition getStateToPutForParent (notificationType : string)
    (notificationSettings : NotificationSettingsObject)
    (changedData : obj string) (parentId : string) : Patch :=
  let providerList :=
    getCurrentProviders notificationType notificationSettings in
  let newValue := firstValue changedData in
  [(notificationType,
    [(getParentKey notificationType,
      [(parentId, forProviders providerList newValue)])])].

(** *** The remaining helpers of the module *)

(** [Project] and [OrganizationSummary] are declared outside this module;
    [groupByOrganization] reads [project.organization] and
    [organization.slug] only. *)
Section GroupByOrganization.
Variables Project OrganizationSummary : Type.
Variable Project_organization : Project -> OrganizationSummary.
Variable OrganizationSummary_slug : OrganizationSummary -> string.

Record OrganizationGroup : Type :=
  { organization : OrganizationSummary;
    projects : list Project }.

(** One step of the [reduce].  The accumulator is an ordinary object, so
    two keys are special: once it has an own property [hasOwnProperty], the
    call [acc.hasOwnProperty(...)] calls a group object and throws; and
    [acc["__proto__"] = group] sets the prototype and adds no property. *)
Definition groupByOrganization_step
    (acc : obj OrganizationGroup) (project : Project)
  : result (obj OrganizationGroup) :=
  let orgSlug := OrganizationSummary_slug (Project_organization project) in
  if has_own "hasOwnProperty" acc then Throw TypeError
  else
    match lookup orgSlug acc with
    | Some group =>
        (* [acc[orgSlug].projects.push(project)] *)
        Ok (obj_set orgSlug
              {| organization := organization group;
                 projects := (projects group ++ [project])%list |}
              acc)
    | None =>
        if orgSlug =? "__proto__" then Ok acc
        else
          Ok (obj_set orgSlug
                {| organization := Project_organization project;
                   projects := [project] |}
                acc)
    end.

Definition groupByOrganization (projectList : list Project)
  : result (obj OrganizationGroup) :=
  fold_left
    (fun acc project =>
       match acc with
       | Ok acc => groupByOrganization_step acc project
       | Throw e => Throw e
       end)
    projectList (Ok []).
End GroupByOrganization.
Arguments organization {Project OrganizationSummary} _.
Arguments projects {Project OrganizationSummary} _.
Arguments Build_OrganizationGroup {Project OrganizationSummary} _ _.
Arguments groupByOrganization_step {Project OrganizationSummary} _ _ _ _.
Arguments groupByOrganization {Project OrganizationSummary} _ _ _.

(** The comparison of [xs.sort()] without a comparator: strings are
    compared character code by character code. *)
Definition defaultCompare (a b : string) : option Z :=
  Some (match String.compare a b with
        | Lt => -1
        | Eq => 0
        | Gt => 1
        end)%Z.

(** The returned string; the in-place reordering of [providers] is not
    part of it. *)
Definition providerListToString (providers : list string) : string :=
  join "+" (sort defaultCompare providers).

(** The result of a function that may [throw new Error(message)]. *)
Inductive outcome (A : Type) : Type :=
| Return (a : A)
| ThrowError (message : string).
Arguments Return {A} a.
Arguments ThrowError {A} message.

(** [choices] may be [undefined]; [found[1]] is [undefined] for a row
    with fewer than two elements. *)
Definition getChoiceString (choices : option (list (list string)))
    (key : string) : outcome (option string) :=
  match choices with
  | None => Return (Some "default")
  | Some choices =>
      match
        find (fun row =>
                match nth_error row 0 with
                | Some first => first =? key
                | None => false
                end)
             choices
      with
      | None => ThrowError ("Could not find " ++ key)
      | Some found => Return (nth_error found 1)
      end
  end.

End NotificationSettings.


(** ** Reference definitions for the statements

    The order of levels, the maximum of a list of levels, the two-stage
    decision and the lookup of a path in a sequence of trees, written
    independently of the code above. *)

Module Reference.
Import Lodash NotificationSettings.

Definition level_order : list string :=
  ["default"; "never"; "always"; "subscribe_only"; "committed_only"].

Fixpoint position (x : string) (xs : list string) : option nat :=
  match xs with
  | [] => None
  | y :: ys =>
      if x =? y then Some 0
      else match position x ys with
           | Some n => Some (S n)
           | None => None
           end
  end.

Definition is_level (x : string) : bool :=
  match position x level_order with Some _ => true | None => false end.

(** [level_lt a b]: [a] stands strictly before [b] in [level_order]. *)
Definition level_lt (a b : string) : bool :=
  match position a level_order, position b level_order with
  | Some i, Some j => Nat.ltb i j
  | _, _ => false
  end.

(** The place of a level in [level_order]. *)
Definition level_index (x : string) : nat :=
  match position x level_order with Some i => i | None => 0 end.

Definition all_levels (l : list string) : Prop :=
  Forall (fun v => is_level v = true) l.

(** Sorted by [level_index], smallest first. *)
Definition ascending : list string -> Prop :=
  StronglySorted (fun a b => (level_index a <= level_index b)%nat).

Definition max_level (levels : list string) : option string :=
  match levels with
  | [] => None
  | x :: xs => Some (fold_left (fun m y => if level_lt m y then y else m) xs x)
  end.

(** Every level found under the grouping scope of the type. *)
Definition parentLevels (notificationType : string)
    (notificationSettings : NotificationSettingsObject) : list string :=
  flat_map (fun settingsByProvider => values settingsByProvider)
    (values (scopeData notificationSettings notificationType
               (getParentKey notificationType))).

Definition second_stage (notificationType : string)
    (notificationSettings : NotificationSettingsObject) : string :=
  let parentSpecific :=
    match max_level (parentLevels notificationType notificationSettings) with
    | Some m => m
    | None => "default"
    end in
  if parentSpecific =? "default" then "never" else parentSpecific.

Definition two_stage (notificationType : string)
    (notificationSettings : NotificationSettingsObject) : string :=
  match max_level
          (values (getUserDefaultValues notificationType notificationSettings))
  with
  | Some parentIndependent =>
      if parentIndependent =? "never"
      then second_stage notificationType notificationSettings
      else parentIndependent
  | None => second_stage notificationType notificationSettings
  end.

(** The last non-["never"] element of a list of levels. *)
Definition last_non_never (levels : list string) : option string :=
  pop (filter (fun v => negb (v =? "never")) levels).

(** [tree[type][scopeType][scopeId]] *)
Definition lookup3 {A : Type} (tree : obj (obj (obj A)))
    (type scopeType scopeId : string) : option A :=
  match lookup type tree with
  | Some settingsByScopeType =>
      match lookup scopeType settingsByScopeType with
      | Some settingsByScopeId => lookup scopeId settingsByScopeId
      | None => None
      end
  | None => None
  end.

(** The provider mapping of the last tree, in argument order, that has the
    path. *)
Fixpoint last_containing (objects : list NotificationSettingsObject)
    (type scopeType scopeId : string) : option ProviderSettings :=
  match objects with
  | [] => None
  | tree :: rest =>
      match last_containing rest type scopeType scopeId with
      | Some m => Some m
      | None => lookup3 tree type scopeType scopeId
      end
  end.

(** Keys that reach lodash [set] as one path segment and are written as
    an own property wherever they stand: free of the path characters [.],
    [[] and []], and none of the names an object or an Array has beside
    its own enumerable properties. *)
Definition path_char (c : ascii) : bool :=
  (Ascii.eqb c "." || Ascii.eqb c "[" || Ascii.eqb c "]")%bool.

Definition no_dot (k : string) : bool := negb (contains "." k).

(** Every own key of the object is free of dots. *)
Definition dotless_keys {A : Type} (o : obj A) : Prop :=
  Forall (fun k => no_dot k = true) (keys o).

Definition reserved_names : list string :=
  (["__proto__"; "constructor"; "prototype"; "length"]
     ++ array_prototype_names ++ inherited_names)%list.

Definition plain_key (k : string) : bool :=
  (negb (existsb path_char (list_ascii_of_string k))
   && negb (includes reserved_names k))%bool.

Definition plain_keys (tree : NotificationSettingsObject) : bool :=
  forallb (fun '(type, settingsByScopeType) =>
    plain_key type &&
    forallb (fun '(scopeType, settingsByScopeId) =>
      plain_key scopeType &&
      forallb (fun '(scopeId, _) => plain_key scopeId)
              (entries settingsByScopeId))
      (entries settingsByScopeType))%bool
    (entries tree).

(** Objects have one property per key. *)
Fixpoint unique_keys {A : Type} (o : obj A) : bool :=
  match o with
  | [] => true
  | (k, _) :: o' => (negb (has_own k o') && unique_keys o')%bool
  end.

Definition well_formed (tree : NotificationSettingsObject) : bool :=
  (unique_keys tree &&
   forallb (fun '(_, settingsByScopeType) =>
     unique_keys settingsByScopeType &&
     forallb (fun '(_, settingsByScopeId) => unique_keys settingsByScopeId)
             (entries settingsByScopeType))
     (entries tree))%bool.

(** [tree[type].user], the user-scope data of a type. *)
Definition userScope (tree : NotificationSettingsObject) (type : string)
  : option (obj ProviderSettings) :=
  match lookup type tree with
  | Some settingsByScopeType => lookup "user" settingsByScopeType
  | None => None
  end.

(** [patch[type][scopeType][scopeId][provider]] *)
Definition lookup4 {A : Type} (patch : obj (obj (obj (obj A))))
    (type scopeType scopeId provider : string) : option A :=
  match lookup type patch with
  | Some a =>
      match lookup scopeType a with
      | Some b =>
          match lookup scopeId b with
          | Some c => lookup provider c
          | None => None
          end
      | None => None
      end
  | None => None
  end.

(** The projects of an organization slug, in input order, and the group
    they form: the organization is the one of the first project. *)
Definition projects_of {Project OrganizationSummary : Type}
    (Project_organization : Project -> OrganizationSummary)
    (OrganizationSummary_slug : OrganizationSummary -> string)
    (orgSlug : string) (projectList : list Project) : list Project :=
  filter (fun project =>
            OrganizationSummary_slug (Project_organization project) =? orgSlug)
         projectList.

Definition group_of {Project OrganizationSummary : Type}
    (Project_organization : Project -> OrganizationSummary)
    (OrganizationSummary_slug : OrganizationSummary -> string)
    (orgSlug : string) (projectList : list Project)
  : option (OrganizationGroup Project OrganizationSummary) :=
  match projects_of Project_organization OrganizationSummary_slug orgSlug
          projectList with
  | [] => None
  | first :: rest =>
      Some {| organization := Project_organization first;
              projects := first :: rest |}
  end.

(** A group extended by later projects of its slug. *)
Definition extend_group {Project OrganizationSummary : Type}
    (Project_organization : Project -> OrganizationSummary)
    (group : option (OrganizationGroup Project OrganizationSummary))
    (more : list Project)
  : option (OrganizationGroup Project OrganizationSummary) :=
  match group, more with
  | Some g, _ =>
      Some {| organization := organization g;
              projects := (projects g ++ more)%list |}
  | None, [] => None
  | None, first :: rest =>
      Some {| organization := Project_organization first;
              projects := first :: rest |}
  end.

(** Strings without a given character. *)
Definition without_char (c : ascii) (s : string) : bool :=
  negb (existsb (fun x => Ascii.eqb x c) (list_ascii_of_string s)).

(** Sorted by character codes, smallest first. *)
Definition sorted_strings : list string -> Prop :=
  StronglySorted (fun a b => String.leb a b = true).

(** ["default"] and ["never"], the two levels that switch nothing on. *)
Definition off_level (v : string) : bool :=
  ((v =? "default") || (v =? "never"))%bool.

(** A non-empty list of levels that are all ["default"]. *)
Definition all_default (levels : list string) : bool :=
  match levels with
  | [] => false
  | _ => forallb (fun v => v =? "default") levels
  end.

(** The providers a default patch writes: the current ones, [email] when
    there is none. *)
Definition defaultProviders (type : string)
    (tree : NotificationSettingsObject) : list string :=
  match getCurrentProviders type tree with
  | [] => ["email"]
  | current => current
  end.

(** The first element of a row of choices is the given key. *)
Definition row_has_key (key : string) (row : list string) : bool :=
  match row with
  | first :: _ => first =? key
  | [] => false
  end.

End Reference.

Import Lodash NotificationSettings Reference.

(** ** Property lists: reads after writes *)

Section ObjectLemmas.
Context {A : Type}.
Implicit Types (o : obj A) (k : string) (v : A).

Lemma has_own_cons k k' v o :
  has_own k ((k', v) :: o) = (String.eqb k k' || has_own k o)%bool.
Proof.
  unfold has_own; simpl. destruct (String.eqb k k'); reflexivity.
Qed.

Lemma lookup_replace k v o k' :
  has_own k o = true ->
  lookup k' (replace k v o) = if String.eqb k' k then Some v else lookup k' o.
Proof.
  induction o as [|[k1 v1] o IH]; simpl; intros Hown.
  - discriminate.
  - rewrite has_own_cons in Hown.
    destruct (String.eqb k k1) eqn:E; simpl.
    + apply String.eqb_eq in E; subst k1.
      destruct (String.eqb k' k); reflexivity.
    + simpl in Hown. rewrite (IH Hown).
      destruct (String.eqb k' k1) eqn:E1; [|reflexivity].
      apply String.eqb_eq in E1; subst k1.
      rewrite String.eqb_sym, E. reflexivity.
Qed.

Lemma lookup_insert_new k v o k' :
  has_own k o = false ->
  lookup k' (insert_new k v o)
  = if String.eqb k' k then Some v else lookup k' o.
Proof.
  induction o as [|[k1 v1] o IH]; simpl; intros Hown.
  - reflexivity.
  - rewrite has_own_cons in Hown. apply orb_false_iff in Hown as [E Hown].
    destruct (key_before k k1); simpl.
    + reflexivity.
    + rewrite (IH Hown).
      destruct (String.eqb k' k) eqn:E1; [|reflexivity].
      apply String.eqb_eq in E1; subst k'. rewrite E. reflexivity.
Qed.

Lemma lookup_obj_set k v o k' :
  lookup k' (obj_set k v o) = if String.eqb k' k then Some v else lookup k' o.
Proof.
  unfold obj_set. destruct (has_own k o) eqn:E.
  - apply lookup_replace, E.
  - apply lookup_insert_new, E.
Qed.

Lemma keys_replace k v o : keys (replace k v o) = keys o.
Proof.
  induction o as [|[k1 v1] o IH]; simpl; [reflexivity|].
  destruct (String.eqb k k1); simpl; [reflexivity|].
  f_equal. exact IH.
Qed.

Lemma in_keys_insert_new k v o k' :
  In k' (keys (insert_new k v o)) -> k' = k \/ In k' (keys o).
Proof.
  induction o as [|[k1 v1] o IH]; simpl.
  - intros [H|[]]; auto.
  - destruct (key_before k k1); simpl.
    + intros [H|[H|H]]; auto.
    + intros [H|H]; auto. destruct (IH H); auto.
Qed.

Lemma in_keys_obj_set k v o k' :
  In k' (keys (obj_set k v o)) -> k' = k \/ In k' (keys o).
Proof.
  unfold obj_set. destruct (has_own k o).
  - rewrite keys_replace. auto.
  - apply in_keys_insert_new.
Qed.

Lemma has_own_in k o : has_own k o = true -> In k (keys o).
Proof.
  induction o as [|[k1 v1] o IH]; simpl.
  - discriminate.
  - rewrite has_own_cons. intros H. apply orb_true_iff in H as [H|H].
    + apply String.eqb_eq in H. auto.
    + auto.
Qed.

Lemma lookup_app k (l1 l2 : obj A) :
  lookup k (l1 ++ l2)%list
  = match lookup k l1 with
    | Some v => Some v
    | None => lookup k l2
    end.
Proof.
  induction l1 as [|[k2 v2] l1 IHl]; simpl; [reflexivity|].
  destruct (String.eqb k k2); [reflexivity|apply IHl].
Qed.

(** [Object.fromEntries]: the last entry of a key decides its value. *)
Lemma lookup_fold_obj_set (es : list (string * A)) o k :
  lookup k (fold_left (fun o kv => obj_set (fst kv) (snd kv) o) es o)
  = match lookup k (rev es) with
    | Some v => Some v
    | None => lookup k o
    end.
Proof.
  revert o. induction es as [|[k1 v1] es IH]; intro o; simpl.
  - reflexivity.
  - rewrite IH, lookup_obj_set.
    rewrite lookup_app. simpl.
    destruct (lookup k (rev es)); [reflexivity|].
    destruct (String.eqb k k1); reflexivity.
Qed.

Lemma pop_cons_some {B : Type} (xs : list B) (x : B) :
  exists z, pop (x :: xs) = Some z.
Proof.
  revert x. induction xs as [|y ys IH]; intro x.
  - exists x. reflexivity.
  - destruct (IH y) as [z Hz]. exists z. exact Hz.
Qed.

Lemma pop_cons {B : Type} (x : B) (xs : list B) :
  pop (x :: xs) = match pop xs with Some y => Some y | None => Some x end.
Proof.
  destruct xs as [|y ys]; [reflexivity|].
  change (pop (x :: y :: ys)) with (pop (y :: ys)).
  destruct (pop_cons_some ys y) as [z ->]. reflexivity.
Qed.

Lemma pop_in {B : Type} (xs : list B) (x : B) : pop xs = Some x -> In x xs.
Proof.
  induction xs as [|y ys IH]; [discriminate|].
  rewrite pop_cons. destruct (pop ys) eqn:E.
  - intros H; right; apply IH; exact H.
  - intros H; injection H as ->; left; reflexivity.
Qed.

Lemma pop_none {B : Type} (xs : list B) : pop xs = None -> xs = [].
Proof.
  destruct xs as [|y ys]; [reflexivity|].
  rewrite pop_cons. destruct (pop ys); discriminate.
Qed.
End ObjectLemmas.

Lemma lookup_forProviders {A : Type} (providerList : list string) (value : A)
    (provider : string) :
  lookup provider (forProviders providerList value)
  = if includes providerList provider then Some value else None.
Proof.
  unfold forProviders, fromEntries. rewrite lookup_fold_obj_set. simpl.
  rewrite <- map_rev.
  assert (H : includes providerList provider = includes (rev providerList) provider).
  { unfold includes.
    induction providerList as [|p ps IH]; simpl; [reflexivity|].
    rewrite existsb_app, <- IH. simpl. rewrite orb_false_r, orb_comm.
    reflexivity. }
  rewrite H. clear H.
  induction (rev providerList) as [|p ps IH]; simpl; [reflexivity|].
  destruct (String.eqb provider p); simpl; [reflexivity|].
  rewrite IH. reflexivity.
Qed.

Lemma includes_in (xs : list string) (x : string) :
  includes xs x = true <-> In x xs.
Proof.
  unfold includes. rewrite existsb_exists. split.
  - intros [y [Hy E]]. apply String.eqb_eq in E. subst. exact Hy.
  - intros H. exists x. split; [exact H|apply String.eqb_refl].
Qed.

(** ** Defaults when nothing is stored *)

Lemma scopeData_userScope tree type :
  scopeData tree type "user" = or_empty (userScope tree type).
Proof. reflexivity. Qed.

Lemma getFallBackValue_not_never type :
  (getFallBackValue type =? "never") = false.
Proof.
  unfold getFallBackValue.
  destruct (type =? "alerts"); [reflexivity|].
  destruct (type =? "deploy"); [reflexivity|].
  destruct (type =? "workflow"); reflexivity.
Qed.

(** Without user-scope data the user values are synthesized from
    [ALL_PROVIDERS]. *)
Lemma getUserDefaultValues_no_user_data type tree :
  userScope tree type = None \/ userScope tree type = Some [] ->
  getUserDefaultValues type tree
  = [("email", getFallBackValue type); ("slack", "never")].
Proof.
  intros H. unfold getUserDefaultValues. rewrite scopeData_userScope.
  destruct H as [-> | ->]; reflexivity.
Qed.

(** C1, as stated, fails: for ["deploy"] and the empty tree the decision is
    not among ["never"] and ["default"], and [isEverythingDisabled] is not
    true. *)
Lemma deploy_empty_tree_not_disabled :
  ~ (isEverythingDisabled "deploy" [] = true
     \/ In (decideDefault "deploy" []) ["never"; "default"]).
Proof.
  intros [H | H].
  - vm_compute in H. discriminate.
  - vm_compute in H. destruct H as [H | [H | []]]; discriminate.
Qed.

(** C1, amended: [isEverythingDisabled] is true exactly when [decideDefault]
    is ["never"] or ["default"]; for ["deploy"] and the empty tree the
    synthesized defaults give ["committed_only"], so the result is false. *)
Theorem isEverythingDisabled_deploy_empty :
  (forall type tree,
      isEverythingDisabled type tree = true
      <-> In (decideDefault type tree) ["never"; "default"])
  /\ decideDefault "deploy" [] = "committed_only"
  /\ isEverythingDisabled "deploy" [] = false.
Proof.
  split; [|split; reflexivity].
  intros type tree. unfold isEverythingDisabled. apply includes_in.
Qed.

(** C2, as stated, fails: with no user-scope data at all the current
    providers are not empty. *)
Lemma getCurrentProviders_empty_tree_not_nil :
  userScope [] "alerts" = None /\ getCurrentProviders "alerts" [] <> [].
Proof. split; [reflexivity|]. vm_compute. discriminate. Qed.

(** C2, amended: for every type and every tree whose user-scope data under
    that type is absent or empty, [getCurrentProviders] returns exactly
    [["email"]]. *)
Theorem getCurrentProviders_no_user_data type tree :
  userScope tree type = None \/ userScope tree type = Some [] ->
  getCurrentProviders type tree = ["email"].
Proof.
  intros H. unfold getCurrentProviders.
  rewrite (getUserDefaultValues_no_user_data _ _ H).
  unfold entries, includes. simpl.
  rewrite getFallBackValue_not_never. reflexivity.
Qed.

Lemma getCurrentProviders_no_user_data_witness :
  (userScope [("deploy", [("organization", [("7", [("email", "always")])])])]
     "deploy" = None
   \/ userScope [("deploy", [("organization", [("7", [("email", "always")])])])]
        "deploy" = Some [])
  /\ getCurrentProviders
       "deploy" [("deploy", [("organization", [("7", [("email", "always")])])])]
     = ["email"].
Proof.
  assert (H : userScope
                [("deploy", [("organization", [("7", [("email", "always")])])])]
                "deploy" = None
              \/ userScope
                   [("deploy", [("organization", [("7", [("email", "always")])])])]
                   "deploy" = Some []) by (left; reflexivity).
  split; [exact H|].
  exact (getCurrentProviders_no_user_data "deploy" _ H).
Defined.

(** ** Backfill *)

Lemma fold_fallback levels fallbackValue :
  fold_left
    (fun previousValue currentValue =>
       if currentValue =? "never" then previousValue else currentValue)
    levels fallbackValue
  = match last_non_never levels with
    | Some v => v
    | None => fallbackValue
    end.
Proof.
  unfold last_non_never. revert fallbackValue.
  induction levels as [|x xs IH]; intro fallbackValue.
  - reflexivity.
  - cbn [fold_left filter]. rewrite IH.
    destruct (x =? "never"); cbn [negb]; [reflexivity|].
    rewrite pop_cons.
    destruct (pop (filter (fun v => negb (v =? "never")) xs)); reflexivity.
Qed.

(** C5: the backfilled mapping has exactly the known providers as keys;
    a provider of [providerList] gets the effective fallback, any other
    gets ["never"] in the user scope and ["default"] elsewhere. *)
Theorem backfill_covers_known_providers
    (data : ProviderSettings) (providerList : list string)
    (fallbackValue scopeType : string) :
  let result :=
    backfillMissingProvidersWithFallback data providerList fallbackValue
      scopeType in
  keys result = keys ALL_PROVIDERS
  /\ Forall
       (fun provider =>
          lookup provider result
          = Some (if includes providerList provider
                  then fallback data fallbackValue
                  else if scopeType =? "user" then "never" else "default"))
       (keys ALL_PROVIDERS).
Proof.
  unfold backfillMissingProvidersWithFallback.
  generalize (fallback data fallbackValue) as fb. intro fb.
  cbn -[includes String.eqb]. split; [reflexivity|].
  repeat constructor.
Qed.

(** C6: the effective fallback is the last value of [data], in enumeration
    order, that is not ["never"], and the passed fallback when there is
    none; for [{email: "always", slack: "never"}] it is ["always"]. *)
Theorem fallback_last_non_never :
  (forall (data : ProviderSettings) (fallbackValue : string),
      fallback data fallbackValue
      = match last_non_never (values data) with
        | Some v => v
        | None => fallbackValue
        end)
  /\ (forall (providers : list string) (fallbackValue : string),
        fallback (map (fun provider => (provider, "never")) providers)
          fallbackValue
        = fallbackValue)
  /\ (forall fallbackValue,
        fallback [("email", "always"); ("slack", "never")] fallbackValue
        = "always").
Proof.
  split; [|split].
  - intros. apply fold_fallback.
  - intros providers fallbackValue. unfold fallback.
    induction providers as [|x xs IH]; [reflexivity|exact IH].
  - reflexivity.
Qed.

(** ** Patch builders *)

Lemma getParentKey_cases type :
  getParentKey type = "project" \/ getParentKey type = "organization".
Proof. unfold getParentKey. destruct (isGroupedByProject type); auto. Qed.

Lemma getParentKey_not_user type : ("user" =? getParentKey type) = false.
Proof. destruct (getParentKey_cases type) as [-> | ->]; reflexivity. Qed.

(** On a tree that has settings, but none for the type, the provider
    builder throws, unless the type names an inherited property. *)
Lemma getStateToPutForProvider_without_type type tree changedData provider :
  lookup "provider" changedData = Some provider ->
  tree <> [] ->
  lookup type tree = None ->
  includes inherited_names type = false ->
  getStateToPutForProvider type tree changedData = Throw TypeError.
Proof.
  intros Hp Hne Hty Hinh. unfold getStateToPutForProvider.
  rewrite Hp, Hty, Hinh.
  destruct tree; [contradiction|reflexivity].
Qed.

(** On the empty tree the provider builder synthesizes the user entry. *)
Lemma getStateToPutForProvider_empty_tree type changedData provider :
  lookup "provider" changedData = Some provider ->
  getStateToPutForProvider type [] changedData
  = Ok [(type,
         [("user",
           [("me", forProviders (split "+" provider) (getFallBackValue type))])])].
Proof.
  intros Hp. unfold getStateToPutForProvider. rewrite Hp. reflexivity.
Qed.

(** C3: for the type ["deploy"], a tree that holds settings for ["alerts"]
    only, and the provider list [email], the provider builder throws a
    [TypeError] where the claim expects the synthesized ["me"] entry. *)
Theorem getStateToPutForProvider_other_type_throws :
  lookup "deploy" [("alerts", [("user", [("me", [("email", "always")])])])]
  = None
  /\ getStateToPutForProvider "deploy"
       [("alerts", [("user", [("me", [("email", "always")])])])]
       [("provider", "email")]
     = Throw TypeError.
Proof. split; reflexivity. Qed.

(** C8: when the new level is ["never"], the default builder sets the user
    entry ["me"] to ["never"] for every current provider ([email] when there
    is none), and maps every given parent id, under the grouping scope of
    the type, to the mapping that sends each of those providers to
    ["default"]. *)
Theorem getStateToPutForDefault_never type tree changedData parentIds :
  firstValue changedData = Some "never" ->
  let providerList :=
    match getCurrentProviders type tree with
    | [] => ["email"]
    | current => current
    end in
  let patch := getStateToPutForDefault type tree changedData parentIds in
  lookup3 patch type "user" "me"
  = Some (forProviders providerList (Some "never"))
  /\ Forall (fun provider =>
               lookup4 patch type "user" "me" provider = Some (Some "never"))
            providerList
  /\ Forall (fun parentId =>
               lookup3 patch type (getParentKey type) parentId
               = Some (forProviders providerList (Some "default"))
               /\ Forall (fun provider =>
                            lookup4 patch type (getParentKey type) parentId
                              provider
                            = Some (Some "default"))
                         providerList)
            parentIds.
Proof.
  intros Hnew providerList patch.
  assert (Hpatch :
            patch
            = [(type,
                obj_set (getParentKey type)
                  (forProviders parentIds
                     (forProviders providerList (Some "default")))
                  [("user", [("me", forProviders providerList (Some "never"))])])]).
  { subst patch providerList. unfold getStateToPutForDefault.
    rewrite Hnew. cbn [strictEquals]. rewrite String.eqb_refl.
    destruct (getCurrentProviders type tree); reflexivity. }
  assert (Huser : lookup3 patch type "user" "me"
                  = Some (forProviders providerList (Some "never"))).
  { rewrite Hpatch. unfold lookup3. cbn [lookup].
    rewrite String.eqb_refl, lookup_obj_set, getParentKey_not_user.
    reflexivity. }
  assert (Hparent : forall parentId,
             In parentId parentIds ->
             lookup3 patch type (getParentKey type) parentId
             = Some (forProviders providerList (Some "default"))).
  { intros parentId Hin. rewrite Hpatch. unfold lookup3. cbn [lookup].
    rewrite String.eqb_refl, lookup_obj_set, String.eqb_refl.
    rewrite lookup_forProviders.
    apply includes_in in Hin. rewrite Hin. reflexivity. }
  assert (Hl4 : forall st id m provider,
             lookup3 patch type st id = Some m ->
             lookup4 patch type st id provider = lookup provider m).
  { intros st id m provider. unfold lookup3, lookup4.
    destruct (lookup type patch); [|discriminate].
    destruct (lookup st o); [|discriminate].
    intros ->. reflexivity. }
  split; [exact Huser|]. split.
  - apply Forall_forall. intros provider Hin.
    rewrite (Hl4 _ _ _ _ Huser), lookup_forProviders.
    apply includes_in in Hin. rewrite Hin. reflexivity.
  - apply Forall_forall. intros parentId Hpid.
    split; [apply Hparent, Hpid|].
    apply Forall_forall. intros provider Hin.
    rewrite (Hl4 _ _ _ _ (Hparent _ Hpid)), lookup_forProviders.
    apply includes_in in Hin. rewrite Hin. reflexivity.
Qed.

Lemma getStateToPutForDefault_never_witness :
  firstValue [("default", "never")] = Some "never"
  /\ lookup3
       (getStateToPutForDefault "alerts"
          [("alerts",
            [("user", [("me", [("email", "always"); ("slack", "always")])]);
             ("project", [("10", [("email", "always"); ("slack", "never")])])])]
          [("default", "never")] ["10"; "20"])
       "alerts" "user" "me"
     = Some [("email", Some "never"); ("slack", Some "never")]
  /\ lookup3
       (getStateToPutForDefault "alerts"
          [("alerts",
            [("user", [("me", [("email", "always"); ("slack", "always")])]);
             ("project", [("10", [("email", "always"); ("slack", "never")])])])]
          [("default", "never")] ["10"; "20"])
       "alerts" "project" "20"
     = Some [("email", Some "default"); ("slack", Some "default")].
Proof.
  split; [reflexivity|].
  pose proof (getStateToPutForDefault_never "alerts"
                [("alerts",
                  [("user",
                    [("me", [("email", "always"); ("slack", "always")])]);
                   ("project",
                    [("10", [("email", "always"); ("slack", "never")])])])]
                [("default", "never")] ["10"; "20"] eq_refl) as H.
  cbv zeta in H. destruct H as [Huser [_ Hparents]].
  split; [exact Huser|].
  exact (proj1 (Forall_inv (Forall_inv_tail Hparents))).
Defined.

(** C10: when no provider is current, the parent builder maps the parent id,
    under the grouping scope of the type, to the empty provider mapping:
    there is no [email] fallback and the patch changes no level. *)
Theorem getStateToPutForParent_no_providers type tree changedData parentId :
  getCurrentProviders type tree = [] ->
  getStateToPutForParent type tree changedData parentId
  = [(type, [(getParentKey type, [(parentId, [])])])].
Proof.
  intros H. unfold getStateToPutForParent. rewrite H. reflexivity.
Qed.

Lemma getStateToPutForParent_no_providers_witness :
  getCurrentProviders "workflow"
    [("workflow", [("user", [("me", [("email", "never"); ("slack", "never")])])])]
  = []
  /\ getStateToPutForParent "workflow"
       [("workflow",
         [("user", [("me", [("email", "never"); ("slack", "never")])])])]
       [("project", "always")] "42"
     = [("workflow", [("project", [("42", [])])])].
Proof.
  split; [reflexivity|].
  exact (getStateToPutForParent_no_providers "workflow"
           [("workflow",
             [("user", [("me", [("email", "never"); ("slack", "never")])])])]
           [("project", "always")] "42" eq_refl).
Defined.

(** ** The default decision *)

(** C9: when the user-scope entry that [getUserDefaultValues] picks has an
    empty provider mapping, the user values are that empty mapping and not
    the synthesized defaults, the parent-independent setting is ["never"],
    and the decision is the one of the parent-specific stage. *)
Theorem decideDefault_empty_user_mapping type tree userData :
  userScope tree type = Some userData ->
  pop (values userData) = Some [] ->
  getUserDefaultValues type tree = []
  /\ parentIndependentSetting type tree = "never"
  /\ decideDefault type tree
     = if parentSpecificSetting type tree =? "default"
       then "never"
       else parentSpecificSetting type tree.
Proof.
  intros Hu Hpop.
  assert (Hvals : getUserDefaultValues type tree = []).
  { unfold getUserDefaultValues. rewrite scopeData_userScope, Hu.
    cbn [or_empty]. rewrite Hpop. reflexivity. }
  assert (Hind : parentIndependentSetting type tree = "never").
  { unfold parentIndependentSetting. rewrite Hvals. reflexivity. }
  repeat split; [exact Hvals|exact Hind|].
  unfold decideDefault. rewrite Hind. reflexivity.
Qed.

Lemma decideDefault_empty_user_mapping_witness :
  userScope
    [("deploy",
      [("user", [("me", [])]);
       ("organization", [("3", [("email", "always"); ("slack", "never")])])])]
    "deploy"
  = Some [("me", [])]
  /\ pop (values [("me", ([] : ProviderSettings))]) = Some []
  /\ decideDefault "deploy"
       [("deploy",
         [("user", [("me", [])]);
          ("organization", [("3", [("email", "always"); ("slack", "never")])])])]
     = "always".
Proof.
  split; [reflexivity|]. split; [reflexivity|].
  exact (proj2 (proj2 (decideDefault_empty_user_mapping "deploy"
                         [("deploy",
                           [("user", [("me", [])]);
                            ("organization",
                             [("3", [("email", "always"); ("slack", "never")])])])]
                         [("me", [])] eq_refl eq_refl))).
Defined.

(** The two precedence examples of the specification. *)
Example decideDefault_user_override :
  decideDefault "alerts"
    [("alerts",
      [("user", [("me", [("email", "always")])]);
       ("project", [("1", [("email", "never")])])])]
  = "always".
Proof. reflexivity. Qed.

Example decideDefault_parent_when_user_never :
  decideDefault "alerts"
    [("alerts",
      [("user", [("me", [("email", "never")])]);
       ("project", [("1", [("email", "subscribe_only")])])])]
  = "subscribe_only".
Proof. reflexivity. Qed.

(** *** Sorting by [compare] and popping yields the maximum level *)

Lemma is_level_cases x :
  is_level x = true ->
  x = "default" \/ x = "never" \/ x = "always" \/ x = "subscribe_only"
  \/ x = "committed_only".
Proof.
  unfold is_level, level_order. cbn [position].
  destruct (x =? "default") eqn:E0; [apply String.eqb_eq in E0; auto|].
  destruct (x =? "never") eqn:E1; [apply String.eqb_eq in E1; auto|].
  destruct (x =? "always") eqn:E2; [apply String.eqb_eq in E2; auto|].
  destruct (x =? "subscribe_only") eqn:E3; [apply String.eqb_eq in E3; auto|].
  destruct (x =? "committed_only") eqn:E4;
    [apply String.eqb_eq in E4; auto 6|discriminate].
Qed.

Ltac level_cases H :=
  apply is_level_cases in H;
  destruct H as [-> | [-> | [-> | [-> | ->]]]].

(** On levels the numeric comparator of the code agrees with the order of
    [level_order]. *)
Lemma comes_after_level_index a b :
  is_level a = true -> is_level b = true ->
  comes_after compare a b = (level_index b <? level_index a)%nat.
Proof. intros Ha Hb. level_cases Ha; level_cases Hb; reflexivity. Qed.

Lemma level_lt_level_index a b :
  is_level a = true -> is_level b = true ->
  level_lt a b = (level_index a <? level_index b)%nat.
Proof. intros Ha Hb. level_cases Ha; level_cases Hb; reflexivity. Qed.

Lemma level_index_inj a b :
  is_level a = true -> is_level b = true ->
  level_index a = level_index b -> a = b.
Proof.
  intros Ha Hb. level_cases Ha; level_cases Hb;
    intros H; try reflexivity; discriminate H.
Qed.

Lemma level_not_empty a : is_level a = true -> (a =? "") = false.
Proof. intros Ha. level_cases Ha; reflexivity. Qed.

Lemma in_sort_insert x y s :
  In x (sort_insert compare y s) <-> x = y \/ In x s.
Proof.
  induction s as [|z s IH]; simpl.
  - intuition.
  - destruct (comes_after compare y z); simpl; [rewrite IH|]; intuition.
Qed.

Lemma in_sort x l : In x (sort compare l) <-> In x l.
Proof.
  induction l as [|y l IH]; simpl; [reflexivity|].
  rewrite in_sort_insert, IH. intuition.
Qed.

Lemma ascending_sort_insert y s :
  is_level y = true -> all_levels s -> ascending s ->
  ascending (sort_insert compare y s).
Proof.
  intros Hy Hs Hasc. induction Hasc as [|z s Hasc IH Hz]; simpl.
  - constructor; constructor.
  - inversion Hs as [|? ? Hzl Hsl]; subst.
    rewrite (comes_after_level_index y z Hy Hzl).
    destruct (level_index z <? level_index y)%nat eqn:E.
    + apply Nat.ltb_lt in E. constructor; [apply IH, Hsl|].
      apply Forall_forall. intros w Hw. apply in_sort_insert in Hw.
      destruct Hw as [-> | Hw]; [lia|].
      rewrite Forall_forall in Hz. apply Hz, Hw.
    + apply Nat.ltb_ge in E. constructor; [constructor; assumption|].
      constructor; [exact E|].
      apply Forall_forall. intros w Hw.
      rewrite Forall_forall in Hz. specialize (Hz w Hw). lia.
Qed.

Lemma all_levels_sort l : all_levels l -> all_levels (sort compare l).
Proof.
  unfold all_levels. rewrite !Forall_forall. intros H x Hx.
  apply H, in_sort, Hx.
Qed.

Lemma ascending_sort l : all_levels l -> ascending (sort compare l).
Proof.
  induction l as [|y l IH]; simpl; intros Hl.
  - constructor.
  - inversion Hl; subst.
    apply ascending_sort_insert; auto using all_levels_sort.
Qed.

Lemma pop_ascending s m :
  ascending s -> pop s = Some m ->
  forall y, In y s -> (level_index y <= level_index m)%nat.
Proof.
  intros Hasc. induction Hasc as [|z s Hasc IH Hz]; [discriminate|].
  rewrite pop_cons. destruct (pop s) as [m'|] eqn:E.
  - intros [= <-] y [<- | Hy]; [|apply IH; auto].
    rewrite Forall_forall in Hz. apply Hz, pop_in, E.
  - apply pop_none in E. subst s.
    intros [= <-] y [<- | []]. lia.
Qed.

Lemma fold_max_spec xs x :
  all_levels (x :: xs) ->
  let m := fold_left (fun m y => if level_lt m y then y else m) xs x in
  In m (x :: xs)
  /\ forall y, In y (x :: xs) -> (level_index y <= level_index m)%nat.
Proof.
  revert x. induction xs as [|z xs IH]; intros x Hl; cbn [fold_left].
  - split; [left; reflexivity|]. intros y [<- | []]. lia.
  - inversion Hl as [|? ? Hx Hl']; subst.
    inversion Hl' as [|? ? Hz Hxs]; subst.
    rewrite (level_lt_level_index x z Hx Hz).
    destruct (level_index x <? level_index z)%nat eqn:E.
    + apply Nat.ltb_lt in E.
      destruct (IH z Hl') as [Hin Hmax]. split.
      * right. exact Hin.
      * intros y [<- | Hy]; [|apply Hmax, Hy].
        specialize (Hmax z (or_introl eq_refl)). lia.
    + apply Nat.ltb_ge in E.
      assert (Hl'' : all_levels (x :: xs)) by (constructor; assumption).
      destruct (IH x Hl'') as [Hin Hmax]. split.
      * destruct Hin as [<- | Hin]; [left; reflexivity|right; right; exact Hin].
      * intros y [<- | [<- | Hy]].
        -- apply Hmax. left; reflexivity.
        -- specialize (Hmax x (or_introl eq_refl)). lia.
        -- apply Hmax. right; exact Hy.
Qed.

Lemma pop_sort_max_level l :
  all_levels l -> pop (sort compare l) = max_level l.
Proof.
  intros Hl. destruct l as [|x xs]; [reflexivity|].
  destruct (pop (sort compare (x :: xs))) as [m|] eqn:E.
  - pose proof (pop_ascending _ m (ascending_sort _ Hl) E) as Hmax.
    pose proof (proj1 (in_sort _ _) (pop_in _ _ E)) as Hin.
    destruct (fold_max_spec xs x Hl) as [Hin' Hmax'].
    unfold max_level. f_equal.
    unfold all_levels in Hl. rewrite Forall_forall in Hl.
    apply level_index_inj; [apply Hl, Hin|apply Hl, Hin'|].
    apply Nat.le_antisymm.
    + apply Hmax', Hin.
    + apply Hmax, in_sort, Hin'.
  - apply pop_none in E.
    assert (Hx : In x (sort compare (x :: xs))) by (apply in_sort; left; reflexivity).
    rewrite E in Hx. destruct Hx.
Qed.

Lemma max_level_is_level l m :
  all_levels l -> max_level l = Some m -> is_level m = true.
Proof.
  intros Hl Hm. destruct l as [|x xs]; [discriminate|].
  injection Hm as <-. destruct (fold_max_spec xs x Hl) as [Hin _].
  unfold all_levels in Hl. rewrite Forall_forall in Hl. apply Hl, Hin.
Qed.

(** C4: on trees whose values are levels, [decideDefault] is the two-stage
    decision: the maximum user-scope level when it is not ["never"], and
    otherwise the maximum level under the grouping scope of the type
    (["default"] when there is none), with ["default"] turned into
    ["never"]. *)
Theorem decideDefault_two_stage type tree :
  all_levels (values (getUserDefaultValues type tree)) ->
  all_levels (parentLevels type tree) ->
  decideDefault type tree = two_stage type tree.
Proof.
  intros Huser Hparent.
  assert (Hsecond :
            (if parentSpecificSetting type tree =? "default"
             then "never"
             else parentSpecificSetting type tree)
            = second_stage type tree).
  { unfold parentSpecificSetting, second_stage, flatMap.
    fold (parentLevels type tree).
    rewrite (pop_sort_max_level _ Hparent).
    destruct (max_level (parentLevels type tree)) as [m|] eqn:E;
      [|reflexivity].
    cbn [or_string].
    rewrite (level_not_empty _ (max_level_is_level _ _ Hparent E)). reflexivity. }
  unfold decideDefault. rewrite Hsecond.
  unfold parentIndependentSetting, two_stage.
  rewrite (pop_sort_max_level _ Huser).
  destruct (max_level (values (getUserDefaultValues type tree))) as [m|] eqn:E;
    [|reflexivity].
  cbn [or_string].
  rewrite (level_not_empty _ (max_level_is_level _ _ Huser E)).
  destruct (m =? "never"); reflexivity.
Qed.

Lemma decideDefault_two_stage_witness :
  all_levels
    (values
       (getUserDefaultValues "alerts"
          [("alerts",
            [("user", [("me", [("email", "never"); ("slack", "never")])]);
             ("project",
              [("1", [("email", "subscribe_only"); ("slack", "default")]);
               ("2", [("email", "always"); ("slack", "never")])])])]))
  /\ all_levels
       (parentLevels "alerts"
          [("alerts",
            [("user", [("me", [("email", "never"); ("slack", "never")])]);
             ("project",
              [("1", [("email", "subscribe_only"); ("slack", "default")]);
               ("2", [("email", "always"); ("slack", "never")])])])])
  /\ decideDefault "alerts"
    [("alerts",
      [("user", [("me", [("email", "never"); ("slack", "never")])]);
       ("project",
        [("1", [("email", "subscribe_only"); ("slack", "default")]);
         ("2", [("email", "always"); ("slack", "never")])])])]
  = "subscribe_only".
Proof.
  assert (Huser :
            all_levels
              (values
                 (getUserDefaultValues "alerts"
                    [("alerts",
                      [("user",
                        [("me", [("email", "never"); ("slack", "never")])]);
                       ("project",
                        [("1", [("email", "subscribe_only");
                                ("slack", "default")]);
                         ("2", [("email", "always"); ("slack", "never")])])])])))
    by (repeat constructor).
  assert (Hparent :
            all_levels
              (parentLevels "alerts"
                 [("alerts",
                   [("user",
                     [("me", [("email", "never"); ("slack", "never")])]);
                    ("project",
                     [("1", [("email", "subscribe_only");
                             ("slack", "default")]);
                      ("2", [("email", "always"); ("slack", "never")])])])]))
    by (repeat constructor).
  split; [exact Huser|]. split; [exact Hparent|].
  exact (decideDefault_two_stage "alerts" _ Huser Hparent).
Defined.

(** ** Merging *)

Lemma split_no_dot s : no_dot s = true -> split "." s = [s].
Proof.
  unfold no_dot, contains. induction s as [|c s IH]; [reflexivity|].
  cbn [list_ascii_of_string existsb split]. rewrite negb_orb.
  intros H. apply andb_true_iff in H as [Hc Hs].
  apply negb_true_iff in Hc. rewrite Hc, (IH Hs). reflexivity.
Qed.

Lemma split_append_dot a b :
  no_dot a = true -> split "." (a ++ String "." b) = a :: split "." b.
Proof.
  unfold no_dot, contains. induction a as [|c a IH]; [reflexivity|].
  cbn [list_ascii_of_string existsb split append]. rewrite negb_orb.
  intros H. apply andb_true_iff in H as [Hc Hs].
  apply negb_true_iff in Hc. rewrite Hc, (IH Hs). reflexivity.
Qed.

Lemma contains_append c a b :
  contains c (a ++ b) = (contains c a || contains c b)%bool.
Proof.
  unfold contains. induction a as [|x a IH]; [reflexivity|].
  cbn [append list_ascii_of_string existsb]. rewrite IH.
  apply orb_assoc.
Qed.

Lemma contains_join3 c t st id :
  Ascii.eqb "." c = false ->
  contains c t = false -> contains c st = false -> contains c id = false ->
  contains c (join "." [t; st; id]) = false.
Proof.
  intros Hc Ht Hst Hid.
  change (join "." [t; st; id]) with (t ++ String "." (st ++ String "." id)).
  rewrite contains_append, Ht.
  change (String "." (st ++ String "." id))
    with (String "." "" ++ (st ++ String "." id)).
  rewrite contains_append, contains_append, Hst.
  change (String "." id) with (String "." "" ++ id).
  rewrite contains_append, Hid.
  unfold contains. cbn [list_ascii_of_string existsb]. rewrite Hc.
  reflexivity.
Qed.

Lemma no_dot_append_dot a b : no_dot (a ++ String "." b) = false.
Proof.
  unfold no_dot. apply negb_false_iff.
  change (String "." b) with (String "." "" ++ b).
  rewrite !contains_append. unfold contains at 2.
  cbn [list_ascii_of_string existsb Ascii.eqb Bool.eqb].
  rewrite orb_true_r. reflexivity.
Qed.

Lemma join3 t st id :
  join "." [t; st; id] = t ++ String "." (st ++ String "." id).
Proof. reflexivity. Qed.

(** A dotted path is not an own key of an object with dotless keys. *)
Lemma dotless_keys_has_own {A : Type} (o : obj A) a b :
  dotless_keys o -> has_own (a ++ String "." b) o = false.
Proof.
  intros Hd. destruct (has_own (a ++ String "." b) o) eqn:E; [|reflexivity].
  apply has_own_in in E. unfold dotless_keys in Hd.
  rewrite Forall_forall in Hd. apply Hd in E.
  rewrite no_dot_append_dot in E. discriminate.
Qed.

Lemma dotless_keys_obj_set {A : Type} k (v : A) o :
  no_dot k = true -> dotless_keys o -> dotless_keys (obj_set k v o).
Proof.
  unfold dotless_keys. rewrite !Forall_forall. intros Hk Ho k' Hin.
  apply in_keys_obj_set in Hin. destruct Hin as [-> | Hin]; auto.
Qed.

Lemma includes_app l1 l2 k :
  includes (l1 ++ l2)%list k = (includes l1 k || includes l2 k)%bool.
Proof. unfold includes. apply existsb_app. Qed.

(** What a plain key is free of. *)
Lemma plain_key_facts k :
  plain_key k = true ->
  contains "." k = false /\ contains "[" k = false /\ contains "]" k = false
  /\ unsafe_key k = false
  /\ (forall kd, inherited kd k = false)
  /\ (k =? "length") = false.
Proof.
  unfold plain_key. intros H. apply andb_true_iff in H as [Hc Hr].
  apply negb_true_iff in Hc. apply negb_true_iff in Hr.
  assert (Hchars : forall c, path_char c = true ->
                             contains c k = false).
  { intros c Hpc. unfold contains.
    induction (list_ascii_of_string k) as [|x l IH]; [reflexivity|].
    cbn [existsb] in *. apply orb_false_iff in Hc as [Hx Hl].
    rewrite (IH Hl), orb_false_r.
    destruct (Ascii.eqb x c) eqn:E; [|reflexivity].
    apply Ascii.eqb_eq in E. subst x. rewrite Hpc in Hx. discriminate. }
  unfold reserved_names in Hr.
  change (["__proto__"; "constructor"; "prototype"; "length"]
            ++ array_prototype_names ++ inherited_names)%list
    with (["__proto__"; "constructor"; "prototype"]
            ++ "length" :: array_prototype_names ++ inherited_names)%list
    in Hr.
  rewrite includes_app in Hr. apply orb_false_iff in Hr as [Hunsafe Harr].
  repeat split; try (apply Hchars; reflexivity).
  - exact Hunsafe.
  - intros [|]; unfold inherited; [|exact Harr].
    change ("length" :: array_prototype_names ++ inherited_names)%list
      with (("length" :: array_prototype_names) ++ inherited_names)%list
      in Harr.
    rewrite includes_app in Harr. apply orb_false_iff in Harr as [_ H].
    exact H.
  - unfold includes in Harr. cbn [existsb app] in Harr.
    apply orb_false_iff in Harr as [H _]. exact H.
Qed.

Lemma plain_key_no_dot k : plain_key k = true -> no_dot k = true.
Proof.
  intros H. destruct (plain_key_facts k H) as [Hd _].
  unfold no_dot. rewrite Hd. reflexivity.
Qed.

Lemma castPath_join3 t st id out :
  plain_key t = true -> plain_key st = true -> plain_key id = true ->
  dotless_keys out ->
  castPath (join "." [t; st; id]) out = Some [t; st; id].
Proof.
  intros Ht Hst Hid Hout.
  destruct (plain_key_facts t Ht) as [_ [Ht1 [Ht2 _]]].
  destruct (plain_key_facts st Hst) as [_ [Hst1 [Hst2 _]]].
  destruct (plain_key_facts id Hid) as [_ [Hid1 [Hid2 _]]].
  unfold castPath.
  rewrite (contains_join3 "[" t st id eq_refl Ht1 Hst1 Hid1).
  rewrite (contains_join3 "]" t st id eq_refl Ht2 Hst2 Hid2).
  cbn [orb]. rewrite join3.
  change (String "." (st ++ String "." id))
    with (String "." "" ++ (st ++ String "." id)) at 1.
  rewrite !contains_append. unfold contains at 2.
  cbn [list_ascii_of_string existsb Ascii.eqb Bool.eqb].
  rewrite orb_true_r. cbn [negb orb].
  rewrite (dotless_keys_has_own _ _ _ Hout). unfold stringToPath.
  rewrite (split_append_dot _ _ (plain_key_no_dot _ Ht)).
  rewrite (split_append_dot _ _ (plain_key_no_dot _ Hst)).
  rewrite (split_no_dot _ (plain_key_no_dot _ Hid)). reflexivity.
Qed.

Lemma nested_at_plain kd next key object :
  plain_key key = true ->
  exists kd', nested_at kd next key object = Some (kd', child key object).
Proof.
  intros Hk. destruct (plain_key_facts key Hk) as [_ [_ [_ [_ [Hinh _]]]]].
  unfold nested_at, child.
  destruct (lookup key object) as [[s|o|o]|].
  - eexists. reflexivity.
  - exists Object. reflexivity.
  - exists Array. reflexivity.
  - rewrite Hinh. eexists. reflexivity.
Qed.

Lemma props_of_wrap kd props : props_of (wrap kd props) = props.
Proof. destruct kd; reflexivity. Qed.

(** Writing a path of three plain keys. *)
Lemma baseSet_plain3 t st id v out :
  plain_key t = true -> plain_key st = true -> plain_key id = true ->
  exists k1 k2,
    baseSet [t; st; id] v Object out
    = Some (obj_set t
              (wrap k1
                 (obj_set st
                    (wrap k2 (obj_set id v (child st (child t out))))
                    (child t out)))
              out).
Proof.
  intros Ht Hst Hid.
  destruct (plain_key_facts t Ht) as [_ [_ [_ [Hut _]]]].
  destruct (plain_key_facts st Hst) as [_ [_ [_ [Hust _]]]].
  destruct (plain_key_facts id Hid) as [_ [_ [_ [Huid [_ Hlen]]]]].
  destruct (nested_at_plain Object st t out Ht) as [k1 H1].
  destruct (nested_at_plain k1 id st (child t out) Hst) as [k2 H2].
  exists k1, k2. cbn [baseSet]. rewrite Hut, H1, Hust, H2, Huid, Hlen.
  destruct k2; reflexivity.
Qed.

(** Reading an own path after such a write. *)
Lemma own3_written t st id v k1 k2 out qt qst qid :
  own3 (obj_set t
          (wrap k1
             (obj_set st
                (wrap k2 (obj_set id v (child st (child t out))))
                (child t out)))
          out) qt qst qid
  = if ((qt =? t) && (qst =? st) && (qid =? id))%bool
    then Some v
    else own3 out qt qst qid.
Proof.
  unfold own3. unfold child at 1 2. rewrite lookup_obj_set.
  destruct (qt =? t) eqn:Et; cbn [andb].
  - apply String.eqb_eq in Et. subst qt.
    rewrite props_of_wrap, lookup_obj_set.
    destruct (qst =? st) eqn:Est; cbn [andb].
    + apply String.eqb_eq in Est. subst qst.
      rewrite props_of_wrap, lookup_obj_set.
      destruct (qid =? id); reflexivity.
    + reflexivity.
  - reflexivity.
Qed.

Lemma set_plain_path t st id v out :
  plain_key t = true -> plain_key st = true -> plain_key id = true ->
  dotless_keys out ->
  exists out',
    set out (join "." [t; st; id]) v = Some out'
    /\ dotless_keys out'
    /\ forall qt qst qid,
        own3 out' qt qst qid
        = if ((qt =? t) && (qst =? st) && (qid =? id))%bool
          then Some v
          else own3 out qt qst qid.
Proof.
  intros Ht Hst Hid Hout. unfold set.
  rewrite (castPath_join3 t st id out Ht Hst Hid Hout).
  destruct (baseSet_plain3 t st id v out Ht Hst Hid) as [k1 [k2 ->]].
  eexists. split; [reflexivity|]. split.
  - apply dotless_keys_obj_set; [apply plain_key_no_dot, Ht|exact Hout].
  - intros. apply own3_written.
Qed.

Lemma has_own_false_lookup {A : Type} k (o : obj A) :
  has_own k o = false -> lookup k o = None.
Proof. unfold has_own. destruct (lookup k o); [discriminate|reflexivity]. Qed.

Section MergeLoops.
(* The bodies of the three inner loops of [mergeNotificationSettings]. *)
Local Abbreviation scopeId_loop type scopeType :=
  (fun output '(scopeId, settingsByProvider) =>
     match output with
     | Some output =>
         set output (join "." [type; scopeType; scopeId])
             (js_of_settings settingsByProvider)
     | None => None
     end).
Local Abbreviation scopeType_loop type :=
  (fun output '(scopeType, settingsByScopeId) =>
     fold_left (scopeId_loop type scopeType) (entries settingsByScopeId)
               output).
Local Abbreviation type_loop :=
  (fun output '(type, settingsByScopeType) =>
     fold_left (scopeType_loop type) (entries settingsByScopeType) output).

Lemma merge_scopeIds t st (b : obj ProviderSettings) :
  plain_key t = true -> plain_key st = true ->
  unique_keys b = true ->
  forallb (fun '(scopeId, _) => plain_key scopeId) b = true ->
  forall out, dotless_keys out ->
  exists out',
    fold_left (scopeId_loop t st) b (Some out) = Some out'
    /\ dotless_keys out'
    /\ forall qt qst qid,
        own3 out' qt qst qid
        = if ((qt =? t) && (qst =? st))%bool
          then match lookup qid b with
               | Some m => Some (js_of_settings m)
               | None => own3 out qt qst qid
               end
          else own3 out qt qst qid.
Proof.
  intros Ht Hst.
  induction b as [|[id m] b IH]; intros Hu Hp out Hout; cbn [fold_left].
  - exists out. split; [reflexivity|]. split; [exact Hout|]. intros.
    destruct ((qt =? t) && (qst =? st))%bool; reflexivity.
  - cbn [unique_keys forallb] in Hu, Hp.
    apply andb_true_iff in Hu as [Hid Hu].
    apply andb_true_iff in Hp as [Hpid Hp].
    apply negb_true_iff in Hid.
    destruct (set_plain_path t st id (js_of_settings m) out Ht Hst Hpid Hout)
      as [out1 [-> [Hout1 Hg1]]].
    destruct (IH Hu Hp _ Hout1) as [out' [Hfold [Hd Hget]]].
    exists out'. split; [exact Hfold|]. split; [exact Hd|].
    intros qt qst qid. rewrite Hget, Hg1. cbn [lookup].
    destruct ((qt =? t) && (qst =? st))%bool; cbn [andb]; [|reflexivity].
    destruct (qid =? id) eqn:E; [|reflexivity].
    apply String.eqb_eq in E. subst qid.
    rewrite (has_own_false_lookup _ _ Hid). reflexivity.
Qed.

Lemma merge_scopeTypes t (a : obj (obj ProviderSettings)) :
  plain_key t = true ->
  unique_keys a = true ->
  forallb (fun '(_, b) => unique_keys b) a = true ->
  forallb (fun '(scopeType, b) =>
             plain_key scopeType
             && forallb (fun '(scopeId, _) => plain_key scopeId) (entries b))%bool
          a = true ->
  forall out, dotless_keys out ->
  exists out',
    fold_left (scopeType_loop t) a (Some out) = Some out'
    /\ dotless_keys out'
    /\ forall qt qst qid,
        own3 out' qt qst qid
        = if qt =? t
          then match lookup qst a with
               | Some b =>
                   match lookup qid b with
                   | Some m => Some (js_of_settings m)
                   | None => own3 out qt qst qid
                   end
               | None => own3 out qt qst qid
               end
          else own3 out qt qst qid.
Proof.
  intros Ht.
  induction a as [|[st b] a IH]; intros Hu Hub Hp out Hout; cbn [fold_left].
  - exists out. split; [reflexivity|]. split; [exact Hout|]. intros.
    destruct (qt =? t); reflexivity.
  - cbn [unique_keys forallb] in Hu, Hub, Hp.
    apply andb_true_iff in Hu as [Hst Hu].
    apply andb_true_iff in Hub as [Hb Hub].
    apply andb_true_iff in Hp as [Hpst Hp].
    apply andb_true_iff in Hpst as [Hpst Hpb].
    apply negb_true_iff in Hst.
    destruct (merge_scopeIds t st b Ht Hpst Hb Hpb out Hout)
      as [out1 [Hf1 [Hd1 Hg1]]].
    unfold entries in *. rewrite Hf1.
    destruct (IH Hu Hub Hp _ Hd1) as [out' [Hfold [Hd Hget]]].
    exists out'. split; [exact Hfold|]. split; [exact Hd|].
    intros qt qst qid. rewrite Hget, Hg1. cbn [lookup].
    destruct (qt =? t); cbn [andb]; [|reflexivity].
    destruct (qst =? st) eqn:E.
    + apply String.eqb_eq in E. subst qst.
      rewrite (has_own_false_lookup _ _ Hst). reflexivity.
    + destruct (lookup qst a) as [b'|]; reflexivity.
Qed.

Lemma merge_types (tree : NotificationSettingsObject) :
  well_formed tree = true -> plain_keys tree = true ->
  forall out, dotless_keys out ->
  exists out',
    fold_left type_loop (entries tree) (Some out) = Some out'
    /\ dotless_keys out'
    /\ forall qt qst qid,
        own3 out' qt qst qid
        = match lookup3 tree qt qst qid with
          | Some m => Some (js_of_settings m)
          | None => own3 out qt qst qid
          end.
Proof.
  unfold well_formed, plain_keys, entries. intros Hw Hp.
  apply andb_true_iff in Hw as [Hu Hw]. revert Hu Hw Hp.
  induction tree as [|[t a] tree IH]; intros Hu Hw Hp out Hout;
    cbn [fold_left].
  - exists out. split; [reflexivity|]. split; [exact Hout|]. reflexivity.
  - cbn [unique_keys forallb] in Hu, Hw, Hp.
    apply andb_true_iff in Hu as [Ht Hu].
    apply andb_true_iff in Hw as [Ha Hw].
    apply andb_true_iff in Ha as [Hua Hub].
    apply andb_true_iff in Hp as [Hpt Hp].
    apply andb_true_iff in Hpt as [Hpt Hpa].
    apply negb_true_iff in Ht.
    destruct (merge_scopeTypes t a Hpt Hua Hub Hpa out Hout)
      as [out1 [Hf1 [Hd1 Hg1]]].
    unfold entries in *. rewrite Hf1.
    destruct (IH Hu Hw Hp _ Hd1) as [out' [Hfold [Hd Hget]]].
    exists out'. split; [exact Hfold|]. split; [exact Hd|].
    intros qt qst qid. rewrite Hget, Hg1.
    unfold lookup3. cbn [lookup].
    destruct (qt =? t) eqn:E.
    + apply String.eqb_eq in E. subst qt.
      rewrite (has_own_false_lookup _ _ Ht).
      destruct (lookup qst a) as [b|]; [|reflexivity].
      destruct (lookup qid b); reflexivity.
    + destruct (lookup qt tree) as [a'|]; [|reflexivity].
      destruct (lookup qst a') as [b'|]; [|reflexivity].
      destruct (lookup qid b'); reflexivity.
Qed.

Lemma merge_objects (objects : list NotificationSettingsObject) :
  Forall (fun tree => well_formed tree = true /\ plain_keys tree = true)
         objects ->
  forall out, dotless_keys out ->
  exists out',
    fold_left (fun output settingsByType =>
                 fold_left type_loop (entries settingsByType) output)
              objects (Some out)
    = Some out'
    /\ forall qt qst qid,
        own3 out' qt qst qid
        = match last_containing objects qt qst qid with
          | Some m => Some (js_of_settings m)
          | None => own3 out qt qst qid
          end.
Proof.
  induction 1 as [|tree objects [Hw Hp] _ IH]; intros out Hout;
    cbn [fold_left last_containing].
  - exists out. split; reflexivity.
  - destruct (merge_types tree Hw Hp out Hout) as [out1 [Hf1 [Hd1 Hg1]]].
    rewrite Hf1. destruct (IH _ Hd1) as [out' [Hfold Hget]].
    exists out'. split; [exact Hfold|].
    intros qt qst qid. rewrite Hget, Hg1.
    destruct (last_containing objects qt qst qid); reflexivity.
Qed.
End MergeLoops.

(** C7: for the single tree [{alerts: {user: {"a.b": {email: "always"}}}}]
    the merge writes the provider mapping two levels below [user], under
    [a] and then [b]: the output has nothing at the path [alerts], [user],
    [a.b] of the input, where the claim expects the mapping of that
    tree. *)
Theorem mergeNotificationSettings_dotted_key_lost :
  last_containing
    [[("alerts", [("user", [("a.b", [("email", "always")])])])]]
    "alerts" "user" "a.b"
  = Some [("email", "always")]
  /\ mergeNotificationSettings
       [[("alerts", [("user", [("a.b", [("email", "always")])])])]]
     = Some [("alerts",
              JObj [("user",
                     JObj [("a",
                            JObj [("b",
                                   JObj [("email", JStr "always")])])])])]
  /\ own3
       [("alerts",
         JObj [("user",
                JObj [("a", JObj [("b", JObj [("email", JStr "always")])])])])]
       "alerts" "user" "a.b"
     = None.
Proof. repeat split. Qed.

(** X19: for trees whose type, scope-type and scope-id keys are plain, the
    merge is modelled, and the merged object has at every path, as an own
    enumerable property, the whole provider mapping of the last argument
    tree that has the path, and none where no tree has it. *)
Theorem mergeNotificationSettings_right_biased
    (objects : list NotificationSettingsObject) :
  Forall (fun tree => well_formed tree = true /\ plain_keys tree = true)
         objects ->
  exists output,
    mergeNotificationSettings objects = Some output
    /\ forall type scopeType scopeId,
        own3 output type scopeType scopeId
        = option_map js_of_settings
            (last_containing objects type scopeType scopeId).
Proof.
  intros H. unfold mergeNotificationSettings.
  destruct (merge_objects objects H [] (Forall_nil _)) as [output [Hf Hget]].
  exists output. split; [exact Hf|].
  intros t st id. rewrite Hget.
  destruct (last_containing objects t st id); reflexivity.
Qed.

Lemma mergeNotificationSettings_right_biased_witness :
  Forall (fun tree => well_formed tree = true /\ plain_keys tree = true)
    [ [("alerts",
        [("user", [("me", [("email", "always")])]);
         ("project", [("20", [("email", "always")])])])];
      [("alerts", [("user", [("me", [("email", "never")])])])] ]
  /\ exists output,
      mergeNotificationSettings
        [ [("alerts",
            [("user", [("me", [("email", "always")])]);
             ("project", [("20", [("email", "always")])])])];
          [("alerts", [("user", [("me", [("email", "never")])])])] ]
      = Some output
      /\ forall type scopeType scopeId,
          own3 output type scopeType scopeId
          = option_map js_of_settings
              (last_containing
                 [ [("alerts",
                     [("user", [("me", [("email", "always")])]);
                      ("project", [("20", [("email", "always")])])])];
                   [("alerts", [("user", [("me", [("email", "never")])])])] ]
                 type scopeType scopeId).
Proof.
  assert (H : Forall
                (fun tree => well_formed tree = true /\ plain_keys tree = true)
                [ [("alerts",
                    [("user", [("me", [("email", "always")])]);
                     ("project", [("20", [("email", "always")])])])];
                  [("alerts", [("user", [("me", [("email", "never")])])])] ])
    by (repeat constructor).
  split; [exact H|].
  exact (mergeNotificationSettings_right_biased _ H).
Defined.

(** ** Grouping projects by organization *)

Section GroupLemmas.
Variables Project OrganizationSummary : Type.
Variable Project_organization : Project -> OrganizationSummary.
Variable OrganizationSummary_slug : OrganizationSummary -> string.

Local Abbreviation slug_of project :=
  (OrganizationSummary_slug (Project_organization project)).
Local Abbreviation reduce_step :=
  (fun acc project =>
     match acc with
     | Ok acc =>
         groupByOrganization_step Project_organization
           OrganizationSummary_slug acc project
     | Throw e => Throw e
     end).
Local Abbreviation no_hasOwnProperty :=
  (Forall (fun project => (slug_of project =? "hasOwnProperty") = false)).

Lemma extend_group_nil (g : option (OrganizationGroup Project OrganizationSummary)) :
  extend_group Project_organization g [] = g.
Proof.
  destruct g as [[o ps]|]; [|reflexivity].
  unfold extend_group. cbn [organization projects].
  rewrite app_nil_r. reflexivity.
Qed.

Lemma projects_of_cons orgSlug project projectList :
  projects_of Project_organization OrganizationSummary_slug orgSlug
    (project :: projectList)
  = if slug_of project =? orgSlug
    then project
         :: projects_of Project_organization OrganizationSummary_slug orgSlug
              projectList
    else projects_of Project_organization OrganizationSummary_slug orgSlug
           projectList.
Proof. reflexivity. Qed.

Lemma reduce_groups projectList :
  forall acc,
    no_hasOwnProperty projectList ->
    has_own "hasOwnProperty" acc = false ->
    lookup "__proto__" acc = None ->
    exists groups,
      fold_left reduce_step projectList (Ok acc) = Ok groups
      /\ forall orgSlug,
          lookup orgSlug groups
          = if orgSlug =? "__proto__" then None
            else extend_group Project_organization (lookup orgSlug acc)
                   (projects_of Project_organization OrganizationSummary_slug
                      orgSlug projectList).
Proof.
  induction projectList as [|p ps IH]; intros acc Hall Hown Hproto.
  - exists acc. split; [reflexivity|]. intros s.
    destruct (s =? "__proto__") eqn:E.
    + apply String.eqb_eq in E. subst s. exact Hproto.
    + symmetry. apply extend_group_nil.
  - inversion Hall as [|? ? Hp Hps]; subst.
    cbn [fold_left].
    assert (Hneq : ("hasOwnProperty" =? slug_of p) = false)
      by (rewrite String.eqb_sym; exact Hp).
    destruct (lookup (slug_of p) acc) as [g|] eqn:Hg.
    + assert (Hstep :
                groupByOrganization_step Project_organization
                  OrganizationSummary_slug acc p
                = Ok (obj_set (slug_of p)
                        {| organization := organization g;
                           projects := (projects g ++ [p])%list |} acc))
        by (unfold groupByOrganization_step; rewrite Hown, Hg; reflexivity).
      rewrite Hstep. clear Hstep.
      assert (Hnp : ("__proto__" =? slug_of p) = false).
      { destruct ("__proto__" =? slug_of p) eqn:E; [|reflexivity].
        apply String.eqb_eq in E. rewrite <- E, Hproto in Hg. discriminate. }
      destruct (IH (obj_set (slug_of p)
                      {| organization := organization g;
                         projects := (projects g ++ [p])%list |} acc) Hps)
        as [groups [Hfold Hlook]].
      * unfold has_own. rewrite lookup_obj_set, Hneq.
        apply has_own_false_lookup in Hown. rewrite Hown. reflexivity.
      * rewrite lookup_obj_set, Hnp. exact Hproto.
      * exists groups. split; [exact Hfold|]. intros s. rewrite Hlook.
        destruct (s =? "__proto__"); [reflexivity|].
        rewrite lookup_obj_set, projects_of_cons, (String.eqb_sym s).
        destruct (slug_of p =? s) eqn:E.
        -- apply String.eqb_eq in E. subst s. rewrite Hg.
           unfold extend_group. cbn [organization projects].
           rewrite <- app_assoc. reflexivity.
        -- reflexivity.
    + destruct (slug_of p =? "__proto__") eqn:Hnp.
      * assert (Hstep :
                  groupByOrganization_step Project_organization
                    OrganizationSummary_slug acc p
                  = Ok acc)
          by (unfold groupByOrganization_step; rewrite Hown, Hg, Hnp;
              reflexivity).
        rewrite Hstep. clear Hstep.
        destruct (IH _ Hps Hown Hproto) as [groups [Hfold Hlook]].
        exists groups. split; [exact Hfold|]. intros s. rewrite Hlook.
        destruct (s =? "__proto__") eqn:Es; [reflexivity|].
        rewrite projects_of_cons.
        apply String.eqb_eq in Hnp. rewrite Hnp, String.eqb_sym, Es.
        reflexivity.
      * assert (Hstep :
                  groupByOrganization_step Project_organization
                    OrganizationSummary_slug acc p
                  = Ok (obj_set (slug_of p)
                          {| organization := Project_organization p;
                             projects := [p] |} acc))
          by (unfold groupByOrganization_step; rewrite Hown, Hg, Hnp;
              reflexivity).
        rewrite Hstep. clear Hstep.
        destruct (IH (obj_set (slug_of p)
                        {| organization := Project_organization p;
                           projects := [p] |} acc) Hps)
          as [groups [Hfold Hlook]].
        -- unfold has_own. rewrite lookup_obj_set, Hneq.
           apply has_own_false_lookup in Hown. rewrite Hown. reflexivity.
        -- rewrite lookup_obj_set, String.eqb_sym, Hnp. exact Hproto.
        -- exists groups. split; [exact Hfold|]. intros s. rewrite Hlook.
           destruct (s =? "__proto__"); [reflexivity|].
           rewrite lookup_obj_set, projects_of_cons, (String.eqb_sym s).
           destruct (slug_of p =? s) eqn:E; [|reflexivity].
           apply String.eqb_eq in E. subst s. rewrite Hg. reflexivity.
Qed.

Lemma reduce_thrown projectList e :
  fold_left reduce_step projectList (Throw e) = Throw e.
Proof. induction projectList as [|p ps IH]; [reflexivity|exact IH]. Qed.

Lemma projects_of_absent orgSlug projectList :
  Forall (fun project => (slug_of project =? orgSlug) = false) projectList ->
  projects_of Project_organization OrganizationSummary_slug orgSlug projectList
  = [].
Proof.
  induction 1 as [|p ps Hp _ IH]; [reflexivity|].
  rewrite projects_of_cons, Hp. exact IH.
Qed.

(** X1: when no organization slug is [hasOwnProperty], the result has, for
    every slug other than [__proto__], exactly the group of the projects
    of that slug, in input order, under the organization of the first of
    them; it has nothing for a slug without projects, and nothing for
    [__proto__]. *)
Theorem groupByOrganization_groups projectList :
  no_hasOwnProperty projectList ->
  exists groups,
    groupByOrganization Project_organization OrganizationSummary_slug
      projectList
    = Ok groups
    /\ forall orgSlug,
        lookup orgSlug groups
        = if orgSlug =? "__proto__" then None
          else group_of Project_organization OrganizationSummary_slug
                 orgSlug projectList.
Proof.
  intros Hall.
  exact (reduce_groups projectList [] Hall eq_refl eq_refl).
Qed.

(** X2: a project whose organization slug is [hasOwnProperty] makes the
    next call of [acc.hasOwnProperty] fail: if any project follows it, the
    function throws a [TypeError]. *)
Theorem groupByOrganization_hasOwnProperty_throws before project next after :
  no_hasOwnProperty before ->
  slug_of project = "hasOwnProperty" ->
  groupByOrganization Project_organization OrganizationSummary_slug
    (before ++ project :: next :: after)%list
  = Throw TypeError.
Proof.
  intros Hbefore Hslug. unfold groupByOrganization.
  rewrite fold_left_app.
  destruct (reduce_groups before [] Hbefore eq_refl eq_refl)
    as [groups [Hfold Hlook]].
  match type of Hfold with
  | ?l = _ =>
      match goal with
      | |- context [fold_left ?f before ?a] =>
          change (fold_left f before a) with l
      end
  end.
  rewrite Hfold. cbn [fold_left].
  assert (Hnone : lookup "hasOwnProperty" groups = None).
  { rewrite Hlook. cbn [String.eqb Ascii.eqb Bool.eqb].
    rewrite (projects_of_absent "hasOwnProperty" before Hbefore).
    reflexivity. }
  assert (Hfirst :
            groupByOrganization_step Project_organization
              OrganizationSummary_slug groups project
            = Ok (obj_set "hasOwnProperty"
                    {| organization := Project_organization project;
                       projects := [project] |} groups)).
  { unfold groupByOrganization_step, has_own.
    rewrite Hslug, Hnone. reflexivity. }
  rewrite Hfirst.
  assert (Hsecond :
            groupByOrganization_step Project_organization
              OrganizationSummary_slug
              (obj_set "hasOwnProperty"
                 {| organization := Project_organization project;
                    projects := [project] |} groups) next
            = Throw TypeError).
  { unfold groupByOrganization_step, has_own.
    rewrite lookup_obj_set, String.eqb_refl. reflexivity. }
  rewrite Hsecond. apply reduce_thrown.
Qed.
End GroupLemmas.

Lemma groupByOrganization_groups_witness :
  Forall (fun project : string * string =>
            (snd project =? "hasOwnProperty") = false)
    [("web", "sentry"); ("api", "acme"); ("docs", "sentry")]
  /\ exists groups,
      groupByOrganization snd (fun slug : string => slug)
        [("web", "sentry"); ("api", "acme"); ("docs", "sentry")]
      = Ok groups
      /\ forall orgSlug,
          lookup orgSlug groups
          = if orgSlug =? "__proto__" then None
            else group_of snd (fun slug : string => slug) orgSlug
                   [("web", "sentry"); ("api", "acme"); ("docs", "sentry")].
Proof.
  assert (H : Forall (fun project : string * string =>
                        (snd project =? "hasOwnProperty") = false)
                [("web", "sentry"); ("api", "acme"); ("docs", "sentry")])
    by (repeat constructor).
  split; [exact H|].
  exact (groupByOrganization_groups (string * string) string snd
           (fun slug => slug) _ H).
Defined.

Lemma groupByOrganization_hasOwnProperty_throws_witness :
  Forall (fun project : string * string =>
            (snd project =? "hasOwnProperty") = false)
    [("web", "sentry")]
  /\ snd ("api", "hasOwnProperty") = "hasOwnProperty"
  /\ groupByOrganization snd (fun slug : string => slug)
       [("web", "sentry"); ("api", "hasOwnProperty"); ("docs", "sentry")]
     = Throw TypeError.
Proof.
  assert (H : Forall (fun project : string * string =>
                        (snd project =? "hasOwnProperty") = false)
                [("web", "sentry")])
    by (repeat constructor).
  split; [exact H|]. split; [reflexivity|].
  exact (groupByOrganization_hasOwnProperty_throws (string * string) string
           snd (fun slug => slug) [("web", "sentry")]
           ("api", "hasOwnProperty") ("docs", "sentry") [] H eq_refl).
Defined.

(** ** Sorting without a comparator, joining and splitting *)

Section SortOrder.
Variable A : Type.
Variable cmp : A -> A -> option Z.
Variable le : A -> A -> Prop.
Hypothesis after_le : forall a b, comes_after cmp a b = true -> le b a.
Hypothesis not_after_le : forall a b, comes_after cmp a b = false -> le a b.
Hypothesis le_trans : forall a b c, le a b -> le b c -> le a c.

Lemma sort_insert_permutation x l :
  Permutation (x :: l) (sort_insert cmp x l).
Proof.
  induction l as [|y l IH]; simpl; [apply Permutation_refl|].
  destruct (comes_after cmp x y); [|apply Permutation_refl].
  eapply perm_trans; [apply perm_swap|]. apply perm_skip, IH.
Qed.

Lemma sort_permutation l : Permutation l (sort cmp l).
Proof.
  induction l as [|x l IH]; simpl; [constructor|].
  eapply perm_trans; [apply perm_skip, IH|apply sort_insert_permutation].
Qed.

Lemma sort_insert_sorted x l :
  StronglySorted le l -> StronglySorted le (sort_insert cmp x l).
Proof.
  induction 1 as [|y l Hl IH Hy]; simpl.
  - constructor; constructor.
  - destruct (comes_after cmp x y) eqn:E.
    + constructor; [exact IH|].
      apply (Permutation_Forall (sort_insert_permutation x l)).
      constructor; [apply after_le, E|exact Hy].
    + apply not_after_le in E.
      constructor; [constructor; assumption|].
      constructor; [exact E|].
      eapply Forall_impl; [|exact Hy]. intros z Hz.
      eapply le_trans; eassumption.
Qed.

Lemma sort_sorted l : StronglySorted le (sort cmp l).
Proof.
  induction l as [|x l IH]; simpl; [constructor|].
  apply sort_insert_sorted, IH.
Qed.

Hypothesis le_antisym : forall a b, le a b -> le b a -> a = b.

Lemma sorted_permutation_eq l1 :
  forall l2,
    StronglySorted le l1 -> StronglySorted le l2 -> Permutation l1 l2 ->
    l1 = l2.
Proof.
  induction l1 as [|a l1 IH]; intros l2 H1 H2 Hp.
  - apply Permutation_nil in Hp. subst. reflexivity.
  - destruct l2 as [|b l2];
      [apply Permutation_sym, Permutation_nil in Hp; discriminate|].
    inversion H1 as [|? ? H1' Ha]; subst.
    inversion H2 as [|? ? H2' Hb]; subst.
    assert (Hab : a = b).
    { assert (Hin1 : In a (b :: l2))
        by (eapply Permutation_in; [exact Hp|left; reflexivity]).
      assert (Hin2 : In b (a :: l1))
        by (eapply Permutation_in;
            [apply Permutation_sym, Hp|left; reflexivity]).
      rewrite Forall_forall in Ha, Hb.
      destruct Hin1 as [->|Hin1]; [reflexivity|].
      destruct Hin2 as [->|Hin2]; [reflexivity|].
      apply le_antisym; auto. }
    subst b. f_equal. apply IH; auto.
    eapply Permutation_cons_inv, Hp.
Qed.
End SortOrder.

Lemma string_leb_trans a :
  forall b c, String.leb a b = true -> String.leb b c = true ->
              String.leb a c = true.
Proof.
  unfold String.leb.
  induction a as [|x a IH]; intros [|y b] [|z c]; simpl;
    try reflexivity; try discriminate.
  unfold Ascii.compare.
  destruct (N.compare_spec (N_of_ascii x) (N_of_ascii y)) as [Exy|Exy|Exy];
    destruct (N.compare_spec (N_of_ascii y) (N_of_ascii z)) as [Eyz|Eyz|Eyz];
    destruct (N.compare_spec (N_of_ascii x) (N_of_ascii z)) as [Exz|Exz|Exz];
    try reflexivity; try discriminate; try lia.
  apply IH.
Qed.

Lemma defaultCompare_after a b :
  comes_after defaultCompare a b = true -> String.leb b a = true.
Proof.
  unfold comes_after, defaultCompare, String.leb.
  rewrite (String.compare_antisym b a).
  destruct (String.compare a b); simpl; try discriminate. reflexivity.
Qed.

Lemma defaultCompare_not_after a b :
  comes_after defaultCompare a b = false -> String.leb a b = true.
Proof.
  unfold comes_after, defaultCompare, String.leb.
  destruct (String.compare a b); simpl; try discriminate; reflexivity.
Qed.

Lemma sort_defaultCompare_sorted l :
  sorted_strings (sort defaultCompare l).
Proof.
  apply (sort_sorted _ defaultCompare (fun a b => String.leb a b = true)).
  - apply defaultCompare_after.
  - apply defaultCompare_not_after.
  - intros a b c. apply string_leb_trans.
Qed.

(** X3: the string depends on the providers only, not on their order. *)
Theorem providerListToString_permutation providers providers' :
  Permutation providers providers' ->
  providerListToString providers = providerListToString providers'.
Proof.
  intros Hp. unfold providerListToString. f_equal.
  apply (sorted_permutation_eq _ (fun a b => String.leb a b = true)
           String.leb_antisym).
  - apply sort_defaultCompare_sorted.
  - apply sort_defaultCompare_sorted.
  - eapply perm_trans;
      [apply Permutation_sym, sort_permutation|].
    eapply perm_trans; [exact Hp|apply sort_permutation].
Qed.

Lemma providerListToString_permutation_witness :
  Permutation ["slack"; "email"; "msteams"] ["email"; "msteams"; "slack"]
  /\ providerListToString ["slack"; "email"; "msteams"]
     = providerListToString ["email"; "msteams"; "slack"].
Proof.
  assert (H : Permutation ["slack"; "email"; "msteams"]
                          ["email"; "msteams"; "slack"]).
  { eapply perm_trans; [apply perm_swap|].
    apply perm_skip, perm_swap. }
  split; [exact H|].
  exact (providerListToString_permutation _ _ H).
Defined.

Lemma split_without_char sep s :
  without_char sep s = true -> split sep s = [s].
Proof.
  unfold without_char. induction s as [|c s IH]; [reflexivity|].
  cbn [list_ascii_of_string existsb split]. rewrite negb_orb.
  intros H. apply andb_true_iff in H as [Hc Hs].
  apply negb_true_iff in Hc. rewrite Hc, (IH Hs). reflexivity.
Qed.

Lemma split_append_sep sep a b :
  without_char sep a = true ->
  split sep (a ++ String sep b) = a :: split sep b.
Proof.
  unfold without_char. induction a as [|c a IH].
  - intros _. cbn [append split]. rewrite Ascii.eqb_refl. reflexivity.
  - cbn [list_ascii_of_string existsb split append]. rewrite negb_orb.
    intros H. apply andb_true_iff in H as [Hc Hs].
    apply negb_true_iff in Hc. rewrite Hc, (IH Hs). reflexivity.
Qed.

Lemma split_join sep xs :
  xs <> [] ->
  Forall (fun s => without_char sep s = true) xs ->
  split sep (join (String sep "") xs) = xs.
Proof.
  intros Hne Hall. induction Hall as [|x xs Hx Hxs IH]; [contradiction|].
  destruct xs as [|y ys].
  - apply split_without_char, Hx.
  - change (join (String sep "") (x :: y :: ys))
      with (x ++ String sep (join (String sep "") (y :: ys))).
    rewrite (split_append_sep _ _ _ Hx), IH by discriminate. reflexivity.
Qed.

(** X4: for a non-empty list of providers without [+] in their names,
    splitting the string at [+], as [getStateToPutForProvider] does, gives
    the providers back, sorted by character codes. *)
Theorem providerListToString_split providers :
  providers <> [] ->
  Forall (fun provider => without_char "+" provider = true) providers ->
  Permutation providers (split "+" (providerListToString providers))
  /\ sorted_strings (split "+" (providerListToString providers)).
Proof.
  intros Hne Hall. unfold providerListToString.
  rewrite split_join.
  - split; [apply sort_permutation|apply sort_defaultCompare_sorted].
  - intros E. apply Hne. apply Permutation_nil.
    rewrite <- E. apply Permutation_sym, sort_permutation.
  - apply (Permutation_Forall (sort_permutation _ defaultCompare providers)).
    exact Hall.
Qed.

Lemma providerListToString_split_witness :
  ["slack"; "email"] <> []
  /\ Forall (fun provider => without_char "+" provider = true)
       ["slack"; "email"]
  /\ Permutation ["slack"; "email"] ["email"; "slack"]
  /\ sorted_strings ["email"; "slack"].
Proof.
  assert (Hne : ["slack"; "email"] <> []) by discriminate.
  assert (Hall : Forall (fun provider => without_char "+" provider = true)
                   ["slack"; "email"]) by (repeat constructor).
  split; [exact Hne|]. split; [exact Hall|].
  exact (providerListToString_split ["slack"; "email"] Hne Hall).
Defined.

(** ** Choice strings *)

Lemma row_has_key_nth key row :
  match nth_error row 0 with
  | Some first => first =? key
  | None => false
  end
  = row_has_key key row.
Proof. destruct row; reflexivity. Qed.

Lemma find_row key choices :
  find (fun row =>
          match nth_error row 0 with
          | Some first => first =? key
          | None => false
          end) choices
  = find (row_has_key key) choices.
Proof.
  induction choices as [|row choices IH]; [reflexivity|].
  cbn [find]. rewrite row_has_key_nth, IH. reflexivity.
Qed.

(** X5: the answer comes from the first row whose first element is the
    key, whatever follows it: its second element, [undefined] when the row
    has none. *)
Theorem getChoiceString_first_row before row after key :
  Forall (fun earlier => row_has_key key earlier = false) before ->
  row_has_key key row = true ->
  getChoiceString (Some (before ++ row :: after)%list) key
  = Return (nth_error row 1).
Proof.
  intros Hbefore Hrow. unfold getChoiceString. rewrite find_row.
  induction Hbefore as [|earlier before He _ IH]; cbn [app find].
  - rewrite Hrow. reflexivity.
  - rewrite He. exact IH.
Qed.

Lemma getChoiceString_first_row_witness :
  Forall (fun earlier => row_has_key "never" earlier = false)
    [["always"; "On"]; []]
  /\ row_has_key "never" ["never"; "Off"] = true
  /\ getChoiceString
       (Some [["always"; "On"]; []; ["never"; "Off"]; ["never"; "Muted"]])
       "never"
     = Return (Some "Off").
Proof.
  assert (H : Forall (fun earlier => row_has_key "never" earlier = false)
                [["always"; "On"]; []]) by (repeat constructor).
  split; [exact H|]. split; [reflexivity|].
  exact (getChoiceString_first_row [["always"; "On"]; []] ["never"; "Off"]
           [["never"; "Muted"]] "never" H eq_refl).
Defined.

(** X6: with a list of choices, the function throws, with the message
    [Could not find <key>], exactly when no row starts with the key;
    without a list it returns ["default"] for every key. *)
Theorem getChoiceString_throws choices key :
  (getChoiceString (Some choices) key = ThrowError ("Could not find " ++ key)
   <-> existsb (row_has_key key) choices = false)
  /\ ((exists message, getChoiceString (Some choices) key = ThrowError message)
      <-> existsb (row_has_key key) choices = false)
  /\ getChoiceString None key = Return (Some "default").
Proof.
  assert (Hfind :
            match find (row_has_key key) choices with
            | Some _ => existsb (row_has_key key) choices = true
            | None => existsb (row_has_key key) choices = false
            end).
  { induction choices as [|row choices IH]; [reflexivity|].
    cbn [find existsb]. destruct (row_has_key key row); [reflexivity|].
    exact IH. }
  unfold getChoiceString. rewrite find_row.
  destruct (find (row_has_key key) choices) as [found|].
  - rewrite Hfind. repeat split; try discriminate.
    intros [message H]. discriminate.
  - rewrite Hfind. repeat split; eauto.
Qed.

(** ** More on the backfill *)

Lemma backfill_shape data providerList fallbackValue scopeType :
  backfillMissingProvidersWithFallback data providerList fallbackValue
    scopeType
  = [("email",
      if includes providerList "email" then fallback data fallbackValue
      else if scopeType =? "user" then "never" else "default");
     ("slack",
      if includes providerList "slack" then fallback data fallbackValue
      else if scopeType =? "user" then "never" else "default")].
Proof. reflexivity. Qed.

Lemma fallback_not_never data fallbackValue :
  (fallbackValue =? "never") = false ->
  (fallback data fallbackValue =? "never") = false.
Proof.
  unfold fallback. revert fallbackValue.
  induction (values data) as [|v vs IH]; intros fb Hfb; [exact Hfb|].
  cbn [fold_left]. destruct (v =? "never") eqn:E; apply IH; assumption.
Qed.

Lemma fallback_never_inv data fallbackValue :
  fallback data fallbackValue = "never" -> fallbackValue = "never".
Proof.
  intros H. destruct (fallbackValue =? "never") eqn:E.
  - apply String.eqb_eq, E.
  - apply (fallback_not_never data) in E. rewrite H in E. discriminate.
Qed.

(** X7: when the passed fallback is not ["never"], every known provider
    of [providerList] comes out with a level other than ["never"],
    whatever [data] holds. *)
Theorem backfill_listed_provider_not_never
    data providerList fallbackValue scopeType provider :
  (fallbackValue =? "never") = false ->
  In provider (keys ALL_PROVIDERS) ->
  includes providerList provider = true ->
  exists level,
    lookup provider
      (backfillMissingProvidersWithFallback data providerList fallbackValue
         scopeType)
    = Some level
    /\ (level =? "never") = false.
Proof.
  intros Hfb Hin Hinc. rewrite backfill_shape.
  exists (fallback data fallbackValue).
  split; [|apply fallback_not_never, Hfb].
  cbn in Hin.
  destruct Hin as [<- | [<- | []]]; cbn [lookup String.eqb Ascii.eqb Bool.eqb];
    rewrite Hinc; reflexivity.
Qed.

Lemma backfill_listed_provider_not_never_witness :
  ("always" =? "never") = false
  /\ In "slack" (keys ALL_PROVIDERS)
  /\ includes ["slack"] "slack" = true
  /\ exists level,
      lookup "slack"
        (backfillMissingProvidersWithFallback
           [("email", "never"); ("slack", "never")] ["slack"] "always" "user")
      = Some level
      /\ (level =? "never") = false.
Proof.
  assert (Hin : In "slack" (keys ALL_PROVIDERS)) by (right; left; reflexivity).
  split; [reflexivity|]. split; [exact Hin|]. split; [reflexivity|].
  exact (backfill_listed_provider_not_never
           [("email", "never"); ("slack", "never")] ["slack"] "always" "user"
           "slack" eq_refl Hin eq_refl).
Defined.

(** X8: in the user scope, backfilling an already backfilled mapping with
    the same provider list and fallback changes nothing. *)
Theorem backfill_user_idempotent data providerList fallbackValue :
  backfillMissingProvidersWithFallback
    (backfillMissingProvidersWithFallback data providerList fallbackValue
       "user")
    providerList fallbackValue "user"
  = backfillMissingProvidersWithFallback data providerList fallbackValue
      "user".
Proof.
  rewrite (backfill_shape data). rewrite backfill_shape.
  remember (fallback data fallbackValue) as f eqn:Hf.
  unfold fallback. cbn [values map snd fold_left].
  cbn [String.eqb Ascii.eqb Bool.eqb].
  destruct (f =? "never") eqn:E.
  - apply String.eqb_eq in E. rewrite E in Hf |- *.
    symmetry in Hf. apply fallback_never_inv in Hf. subst fallbackValue.
    destruct (includes providerList "email"),
      (includes providerList "slack"); reflexivity.
  - destruct (includes providerList "email"),
      (includes providerList "slack");
      cbn [String.eqb Ascii.eqb Bool.eqb]; rewrite ?E; reflexivity.
Qed.

(** X9: in a parent scope, when [slack] is not in the provider list, the
    ["default"] that the backfill writes for it counts as a value in the
    next pass: backfilling the result again sets every provider to
    ["default"], whatever [data] and the fallbacks were. *)
Theorem backfill_parent_twice_all_default
    data providerList fallbackValue fallbackValue' scopeType :
  (scopeType =? "user") = false ->
  includes providerList "slack" = false ->
  backfillMissingProvidersWithFallback
    (backfillMissingProvidersWithFallback data providerList fallbackValue
       scopeType)
    providerList fallbackValue' scopeType
  = [("email", "default"); ("slack", "default")].
Proof.
  intros Hscope Hslack. rewrite (backfill_shape data). rewrite backfill_shape.
  rewrite Hscope, Hslack.
  generalize (fallback data fallbackValue) as f. intro f.
  unfold fallback. cbn [values map snd fold_left].
  cbn [String.eqb Ascii.eqb Bool.eqb].
  destruct (includes providerList "email"); reflexivity.
Qed.

Lemma backfill_parent_twice_all_default_witness :
  ("project" =? "user") = false
  /\ includes ["email"] "slack" = false
  /\ backfillMissingProvidersWithFallback
       (backfillMissingProvidersWithFallback
          [("email", "always")] ["email"] "always" "project")
       ["email"] "always" "project"
     = [("email", "default"); ("slack", "default")].
Proof.
  split; [reflexivity|]. split; [reflexivity|].
  exact (backfill_parent_twice_all_default
           [("email", "always")] ["email"] "always" "always" "project"
           eq_refl eq_refl).
Defined.

(** ** More on the provider patch *)

Lemma lookup_in {A : Type} k (o : obj A) v :
  lookup k o = Some v -> In (k, v) o.
Proof.
  induction o as [|[k1 v1] o IH]; simpl; [discriminate|].
  destruct (k =? k1) eqn:E.
  - apply String.eqb_eq in E. intros [= ->]. left. subst. reflexivity.
  - intros H. right. apply IH, H.
Qed.

(** [Object.fromEntries(Object.entries(o).map(([k, v]) => [k, f(k, v)]))]
    read at a key. *)
Lemma lookup_fold_map {A B : Type} (f : string -> A -> B) (o : obj A) :
  unique_keys o = true ->
  forall acc k,
    lookup k
      (fold_left (fun o kv => obj_set (fst kv) (snd kv) o)
         (map (fun '(k, v) => (k, f k v)) o) acc)
    = match lookup k o with
      | Some v => Some (f k v)
      | None => lookup k acc
      end.
Proof.
  induction o as [|[k1 v1] o IH]; intros Hu acc k; [reflexivity|].
  cbn [unique_keys] in Hu. apply andb_true_iff in Hu as [Hk1 Hu].
  apply negb_true_iff in Hk1.
  cbn [map fold_left fst snd lookup]. rewrite (IH Hu), lookup_obj_set.
  destruct (k =? k1) eqn:E; [|reflexivity].
  apply String.eqb_eq in E. subst k1.
  rewrite (has_own_false_lookup _ _ Hk1). reflexivity.
Qed.

Lemma in_values_obj_set {A : Type} k (v : A) o v' :
  In v' (values (obj_set k v o)) -> v' = v \/ In v' (values o).
Proof.
  unfold obj_set. destruct (has_own k o).
  - induction o as [|[k1 v1] o IH]; simpl; [intros []|].
    destruct (k =? k1); simpl.
    + intros [<- | H]; auto.
    + intros [<- | H]; auto. destruct (IH H); auto.
  - induction o as [|[k1 v1] o IH]; simpl.
    + intros [<- | []]; auto.
    + destruct (key_before k k1); simpl.
      * intros [<- | [<- | H]]; auto.
      * intros [<- | H]; auto. destruct (IH H); auto.
Qed.

Lemma in_values_fold_obj_set {A : Type} (es : list (string * A)) :
  forall acc v,
    In v (values (fold_left (fun o kv => obj_set (fst kv) (snd kv) o) es acc)) ->
    In v (map snd es) \/ In v (values acc).
Proof.
  induction es as [|[k1 v1] es IH]; intros acc v; cbn [fold_left map].
  - auto.
  - intros H. destruct (IH _ _ H) as [H' | H']; [left; right; exact H'|].
    apply in_values_obj_set in H'. destruct H' as [-> | H']; auto.
    left. left. reflexivity.
Qed.

Lemma fold_obj_set_not_nil {A : Type} (es : list (string * A)) :
  forall acc,
    (es <> [] \/ acc <> []) ->
    fold_left (fun o kv => obj_set (fst kv) (snd kv) o) es acc <> [].
Proof.
  assert (Hset : forall k (v : A) o, obj_set k v o <> []).
  { intros k v o E.
    pose proof (lookup_obj_set k v o k) as H.
    rewrite E, String.eqb_refl in H. discriminate. }
  induction es as [|[k1 v1] es IH]; intros acc H; cbn [fold_left].
  - destruct H as [H | H]; [contradiction|exact H].
  - apply IH. right. apply Hset.
Qed.

(* Rewrite with an equation whose left-hand side occurs in the goal up to
   conversion only. *)
Ltac rewrite_lookup H :=
  match type of H with
  | lookup ?k ?l = _ =>
      match goal with
      | |- context [lookup k ?X] =>
          change (lookup k X) with (lookup k l); rewrite H
      end
  end.

Lemma provider_patch type tree changedData provider settingsByScopeType :
  lookup "provider" changedData = Some provider ->
  lookup type tree = Some settingsByScopeType ->
  getStateToPutForProvider type tree changedData
  = Ok [(type,
         fromEntries
           (map (fun '(scopeType, scopeTypeData) =>
                   (scopeType,
                    fromEntries
                      (map (fun '(scopeId, scopeIdData) =>
                              (scopeId,
                               backfillMissingProvidersWithFallback
                                 scopeIdData (split "+" provider)
                                 (getFallBackValue type) scopeType))
                           scopeTypeData)))
                settingsByScopeType))].
Proof.
  intros Hp Ht. unfold getStateToPutForProvider. rewrite Hp, Ht.
  destruct tree; [discriminate|reflexivity].
Qed.

Lemma well_formed_at type tree settingsByScopeType :
  well_formed tree = true ->
  lookup type tree = Some settingsByScopeType ->
  unique_keys settingsByScopeType = true
  /\ forall scopeType settingsByScopeId,
      lookup scopeType settingsByScopeType = Some settingsByScopeId ->
      unique_keys settingsByScopeId = true.
Proof.
  unfold well_formed, entries. intros Hw Ht.
  apply andb_true_iff in Hw as [_ Hw].
  rewrite forallb_forall in Hw.
  specialize (Hw _ (lookup_in _ _ _ Ht)). cbn beta iota in Hw.
  apply andb_true_iff in Hw as [Hu Hin]. split; [exact Hu|].
  intros st d Hst. rewrite forallb_forall in Hin.
  exact (Hin _ (lookup_in _ _ _ Hst)).
Qed.

(** The paths of the provider patch and their provider mappings. *)
Lemma provider_patch_paths type tree changedData provider settingsByScopeType :
  well_formed tree = true ->
  lookup "provider" changedData = Some provider ->
  lookup type tree = Some settingsByScopeType ->
  exists patch,
    getStateToPutForProvider type tree changedData = Ok patch
    /\ (forall otherType, (otherType =? type) = false ->
                          lookup otherType patch = None)
    /\ forall scopeType scopeId,
        lookup3 patch type scopeType scopeId
        = option_map
            (fun scopeIdData =>
               backfillMissingProvidersWithFallback scopeIdData
                 (split "+" provider) (getFallBackValue type) scopeType)
            (lookup3 tree type scopeType scopeId).
Proof.
  intros Hw Hp Ht. eexists. split; [apply (provider_patch _ _ _ _ _ Hp Ht)|].
  destruct (well_formed_at _ _ _ Hw Ht) as [Hu Hin].
  split.
  - intros t Hne. cbn [lookup]. rewrite Hne. reflexivity.
  - intros st id. unfold lookup3. rewrite Ht. cbn [lookup].
    rewrite String.eqb_refl. unfold fromEntries at 1.
    pose proof (lookup_fold_map
                  (fun scopeType (scopeTypeData : obj ProviderSettings) =>
                     fromEntries
                       (map (fun '(scopeId, scopeIdData) =>
                               (scopeId,
                                backfillMissingProvidersWithFallback
                                  scopeIdData (split "+" provider)
                                  (getFallBackValue type) scopeType))
                            scopeTypeData))
                  settingsByScopeType Hu [] st) as H1.
    cbn beta in H1. rewrite_lookup H1. clear H1.
    destruct (lookup st settingsByScopeType) as [d|] eqn:Hst; [|reflexivity].
    unfold fromEntries.
    pose proof (lookup_fold_map
                  (fun (_ : string) (scopeIdData : ProviderSettings) =>
                     backfillMissingProvidersWithFallback
                       scopeIdData (split "+" provider)
                       (getFallBackValue type) st)
                  d (Hin _ _ Hst) [] id) as H2.
    cbn beta in H2. rewrite_lookup H2.
    destruct (lookup id d); reflexivity.
Qed.

(** X10: the provider builder throws a [TypeError] in exactly two cases:
    [changedData] has no [provider]; or the tree is not empty, has no
    entry for the type, and the type is not the name of an inherited
    property.  For such a name on a non-empty tree without an entry of
    that name, the patch holds the type with no scope below it. *)
Theorem getStateToPutForProvider_throws_iff type tree changedData :
  (getStateToPutForProvider type tree changedData = Throw TypeError
   <-> lookup "provider" changedData = None
       \/ (tree <> [] /\ lookup type tree = None
           /\ includes inherited_names type = false))
  /\ (lookup "provider" changedData <> None /\ tree <> []
      /\ lookup type tree = None /\ includes inherited_names type = true
      <-> getStateToPutForProvider type tree changedData = Ok [(type, [])]
          /\ tree <> [] /\ lookup type tree = None).
Proof.
  unfold getStateToPutForProvider.
  destruct (lookup "provider" changedData) as [provider|].
  - destruct tree as [|entry tree'].
    + cbn [keys map List.length Nat.eqb negb]. split.
      * split; [discriminate|].
        intros [H | [H _]]; [discriminate|contradiction].
      * split; [intros [_ [H _]]|intros [_ [H _]]]; contradiction.
    + cbn [keys map List.length Nat.eqb negb].
      destruct (lookup type (entry :: tree')).
      * split.
        -- split; [discriminate|]. intros [H | [_ [H _]]]; discriminate.
        -- split; [intros [_ [_ [H _]]]|intros [_ [_ H]]]; discriminate.
      * destruct (includes inherited_names type); split.
        -- split; [discriminate|]. intros [H | [_ [_ H]]]; discriminate.
        -- split; [intros _|intros _]; repeat split; discriminate.
        -- split; [|reflexivity]. intros _. right.
           repeat split. discriminate.
        -- split; [intros [_ [_ [_ H]]]|intros [H _]]; discriminate.
  - split.
    + split; [|reflexivity]. intros _. left. reflexivity.
    + split; [intros [H _]; contradiction|intros [H _]; discriminate].
Qed.

(** X11: on a tree that has the type, the provider patch holds that type
    only, and below it exactly the paths of the tree, each with the
    backfill of its provider mapping for the path's scope type. *)
Theorem getStateToPutForProvider_paths
    type tree changedData provider settingsByScopeType :
  well_formed tree = true ->
  lookup "provider" changedData = Some provider ->
  lookup type tree = Some settingsByScopeType ->
  exists patch,
    getStateToPutForProvider type tree changedData = Ok patch
    /\ (forall otherType, (otherType =? type) = false ->
                          lookup otherType patch = None)
    /\ forall scopeType scopeId,
        lookup3 patch type scopeType scopeId
        = option_map
            (fun scopeIdData =>
               backfillMissingProvidersWithFallback scopeIdData
                 (split "+" provider) (getFallBackValue type) scopeType)
            (lookup3 tree type scopeType scopeId).
Proof. apply provider_patch_paths. Qed.

Lemma getStateToPutForProvider_paths_witness :
  well_formed
    [("alerts",
      [("user", [("me", [("email", "always"); ("slack", "never")])]);
       ("project", [("1", [("email", "never"); ("slack", "never")])])])]
  = true
  /\ exists patch,
      getStateToPutForProvider "alerts"
        [("alerts",
          [("user", [("me", [("email", "always"); ("slack", "never")])]);
           ("project", [("1", [("email", "never"); ("slack", "never")])])])]
        [("provider", "slack")]
      = Ok patch
      /\ (forall otherType, (otherType =? "alerts") = false ->
                            lookup otherType patch = None)
      /\ forall scopeType scopeId,
          lookup3 patch "alerts" scopeType scopeId
          = option_map
              (fun scopeIdData =>
                 backfillMissingProvidersWithFallback scopeIdData
                   ["slack"] "always" scopeType)
              (lookup3
                 [("alerts",
                   [("user",
                     [("me", [("email", "always"); ("slack", "never")])]);
                    ("project",
                     [("1", [("email", "never"); ("slack", "never")])])])]
                 "alerts" scopeType scopeId).
Proof.
  split; [reflexivity|].
  exact (getStateToPutForProvider_paths "alerts"
           [("alerts",
             [("user", [("me", [("email", "always"); ("slack", "never")])]);
              ("project", [("1", [("email", "never"); ("slack", "never")])])])]
           [("provider", "slack")] "slack"
           [("user", [("me", [("email", "always"); ("slack", "never")])]);
            ("project", [("1", [("email", "never"); ("slack", "never")])])]
           eq_refl eq_refl eq_refl).
Defined.

(** X12: every provider mapping in the provider patch is fully backfilled:
    its keys are exactly the known providers. *)
Theorem getStateToPutForProvider_leaves_backfilled
    type tree changedData provider settingsByScopeType :
  well_formed tree = true ->
  lookup "provider" changedData = Some provider ->
  lookup type tree = Some settingsByScopeType ->
  exists patch,
    getStateToPutForProvider type tree changedData = Ok patch
    /\ forall scopeType scopeId settingsByProvider,
        lookup3 patch type scopeType scopeId = Some settingsByProvider ->
        keys settingsByProvider = keys ALL_PROVIDERS.
Proof.
  intros Hw Hp Ht.
  destruct (provider_patch_paths _ _ _ _ _ Hw Hp Ht) as [patch [Hok [_ Hpaths]]].
  exists patch. split; [exact Hok|].
  intros st id m Hm. rewrite Hpaths in Hm.
  destruct (lookup3 tree type st id); [|discriminate].
  injection Hm as <-. reflexivity.
Qed.

Lemma getStateToPutForProvider_leaves_backfilled_witness :
  well_formed
    [("deploy", [("organization", [("7", [("email", "always")])])])]
  = true
  /\ exists patch,
      getStateToPutForProvider "deploy"
        [("deploy", [("organization", [("7", [("email", "always")])])])]
        [("provider", "email+slack")]
      = Ok patch
      /\ forall scopeType scopeId settingsByProvider,
          lookup3 patch "deploy" scopeType scopeId = Some settingsByProvider ->
          keys settingsByProvider = keys ALL_PROVIDERS.
Proof.
  split; [reflexivity|].
  exact (getStateToPutForProvider_leaves_backfilled "deploy"
           [("deploy", [("organization", [("7", [("email", "always")])])])]
           [("provider", "email+slack")] "email+slack"
           [("organization", [("7", [("email", "always")])])]
           eq_refl eq_refl eq_refl).
Defined.

(** X13: on a tree with user-scope data for the type, the providers that
    are current in the provider patch are exactly the known providers of
    the requested list. *)
Theorem getCurrentProviders_after_provider_patch
    type tree changedData provider userData :
  well_formed tree = true ->
  lookup "provider" changedData = Some provider ->
  userScope tree type = Some userData ->
  userData <> [] ->
  exists patch,
    getStateToPutForProvider type tree changedData = Ok patch
    /\ getCurrentProviders type patch
       = filter (includes (split "+" provider)) (keys ALL_PROVIDERS).
Proof.
  intros Hw Hp Hu Hne. unfold userScope in Hu.
  destruct (lookup type tree) as [a|] eqn:Ht; [|discriminate].
  destruct (provider_patch_paths _ _ _ _ _ Hw Hp Ht) as [patch [Hok _]].
  exists patch. split; [exact Hok|].
  rewrite (provider_patch _ _ _ _ _ Hp Ht) in Hok. injection Hok as <-.
  destruct (well_formed_at _ _ _ Hw Ht) as [Hua _].
  unfold getCurrentProviders, getUserDefaultValues, scopeData.
  cbn [lookup]. rewrite String.eqb_refl. unfold fromEntries at 1.
  pose proof (lookup_fold_map
                (fun scopeType (scopeTypeData : obj ProviderSettings) =>
                   fromEntries
                     (map (fun '(scopeId, scopeIdData) =>
                             (scopeId,
                              backfillMissingProvidersWithFallback
                                scopeIdData (split "+" provider)
                                (getFallBackValue type) scopeType))
                          scopeTypeData))
                a Hua [] "user") as H1.
  cbn beta in H1. rewrite_lookup H1. clear H1. rewrite Hu.
  cbn [or_empty].
  set (user' :=
         fromEntries
           (map (fun '(scopeId, scopeIdData) =>
                   (scopeId,
                    backfillMissingProvidersWithFallback scopeIdData
                      (split "+" provider) (getFallBackValue type) "user"))
                userData)).
  destruct (pop (values user')) as [picked|] eqn:Hpop.
  - apply pop_in in Hpop. subst user'. unfold fromEntries in Hpop.
    apply in_values_fold_obj_set in Hpop.
    destruct Hpop as [Hpop | []].
    rewrite map_map in Hpop. apply in_map_iff in Hpop.
    destruct Hpop as [[id m] [<- _]]. cbn [snd].
    rewrite backfill_shape. unfold entries.
    pose proof (fallback_not_never m _ (getFallBackValue_not_never type))
      as Hf.
    cbn [filter keys map fst ALL_PROVIDERS].
    destruct (includes (split "+" provider) "email"),
      (includes (split "+" provider) "slack");
      unfold includes; cbn [existsb]; rewrite ?Hf; cbn; reflexivity.
  - apply pop_none in Hpop.
    assert (Hv : user' <> []).
    { subst user'. unfold fromEntries. apply fold_obj_set_not_nil. left.
      destruct userData; [contradiction|discriminate]. }
    destruct user'; [contradiction|discriminate].
Qed.

Lemma getCurrentProviders_after_provider_patch_witness :
  well_formed
    [("alerts",
      [("user", [("me", [("email", "always"); ("slack", "never")])]);
       ("project", [("1", [("email", "never"); ("slack", "never")])])])]
  = true
  /\ [("me", [("email", "always"); ("slack", "never")])] <> []
  /\ exists patch,
      getStateToPutForProvider "alerts"
        [("alerts",
          [("user", [("me", [("email", "always"); ("slack", "never")])]);
           ("project", [("1", [("email", "never"); ("slack", "never")])])])]
        [("provider", "slack")]
      = Ok patch
      /\ getCurrentProviders "alerts" patch = ["slack"].
Proof.
  assert (Hne : [("me", [("email", "always"); ("slack", "never")])] <> [])
    by discriminate.
  split; [reflexivity|]. split; [exact Hne|].
  exact (getCurrentProviders_after_provider_patch "alerts"
           [("alerts",
             [("user", [("me", [("email", "always"); ("slack", "never")])]);
              ("project", [("1", [("email", "never"); ("slack", "never")])])])]
           [("provider", "slack")] "slack"
           [("me", [("email", "always"); ("slack", "never")])]
           eq_refl eq_refl eq_refl Hne).
Defined.

(** ** More on the default decision *)

Lemma decideDefault_by_max_level type tree :
  all_levels (values (getUserDefaultValues type tree)) ->
  all_levels (parentLevels type tree) ->
  decideDefault type tree = two_stage type tree.
Proof.
  intros Huser Hparent.
  unfold decideDefault, parentIndependentSetting, parentSpecificSetting,
    two_stage, second_stage, flatMap.
  fold (parentLevels type tree).
  rewrite (pop_sort_max_level _ Huser), (pop_sort_max_level _ Hparent).
  destruct (max_level (parentLevels type tree)) as [p|] eqn:Ep;
    destruct (max_level (values (getUserDefaultValues type tree)))
      as [m|] eqn:Em;
    cbn [or_string];
    rewrite ?(level_not_empty _ (max_level_is_level _ _ Hparent Ep)),
      ?(level_not_empty _ (max_level_is_level _ _ Huser Em));
    try destruct (m =? "never"); reflexivity.
Qed.

Lemma forallb_on_levels (f g : string -> bool) l :
  all_levels l ->
  (forall v, is_level v = true -> f v = g v) ->
  forallb f l = forallb g l.
Proof.
  intros Hl Hfg. induction Hl as [|v l Hv _ IH]; [reflexivity|].
  cbn [forallb]. rewrite (Hfg v Hv), IH. reflexivity.
Qed.

Lemma forallb_level_index l m n :
  In m l ->
  (forall y, In y l -> (level_index y <= level_index m)%nat) ->
  forallb (fun v => (level_index v <=? n)%nat) l = (level_index m <=? n)%nat.
Proof.
  intros Hin Hmax. destruct (level_index m <=? n)%nat eqn:E.
  - apply Nat.leb_le in E. apply forallb_forall. intros y Hy.
    apply Nat.leb_le. specialize (Hmax y Hy). lia.
  - destruct (forallb (fun v => (level_index v <=? n)%nat) l) eqn:F;
      [|reflexivity].
    rewrite forallb_forall in F. rewrite (F m Hin) in E. discriminate.
Qed.

Lemma off_level_index v :
  is_level v = true -> off_level v = (level_index v <=? 1)%nat.
Proof. intros Hv. level_cases Hv; reflexivity. Qed.

Lemma default_level_index v :
  is_level v = true -> (v =? "default") = (level_index v <=? 0)%nat.
Proof. intros Hv. level_cases Hv; reflexivity. Qed.

Lemma max_level_thresholds l m :
  all_levels l -> max_level l = Some m ->
  forallb off_level l = off_level m
  /\ all_default l = (m =? "default").
Proof.
  intros Hl Hm. pose proof (max_level_is_level _ _ Hl Hm) as Hlev.
  destruct l as [|x xs]; [discriminate|].
  injection Hm as Hm. destruct (fold_max_spec xs x Hl) as [Hin Hmax].
  cbv zeta in Hin, Hmax. rewrite Hm in Hin, Hmax. split.
  - rewrite (forallb_on_levels _ _ _ Hl off_level_index).
    rewrite (off_level_index _ Hlev).
    apply forallb_level_index; assumption.
  - unfold all_default.
    rewrite (forallb_on_levels _ _ _ Hl default_level_index).
    rewrite (default_level_index _ Hlev).
    apply forallb_level_index; assumption.
Qed.

Lemma second_stage_disabled type tree :
  all_levels (parentLevels type tree) ->
  includes ["never"; "default"] (second_stage type tree)
  = forallb off_level (parentLevels type tree).
Proof.
  intros Hl. unfold second_stage.
  destruct (max_level (parentLevels type tree)) as [p|] eqn:E.
  - destruct (max_level_thresholds _ _ Hl E) as [-> _].
    pose proof (max_level_is_level _ _ Hl E) as Hp.
    level_cases Hp; reflexivity.
  - destruct (parentLevels type tree); [reflexivity|discriminate].
Qed.

(** X14: on trees whose values are levels, everything counts as disabled
    exactly when the user values are all ["default"] (and there is one),
    or when every user value and every value under the grouping scope is
    ["default"] or ["never"]. *)
Theorem isEverythingDisabled_on_levels type tree :
  all_levels (values (getUserDefaultValues type tree)) ->
  all_levels (parentLevels type tree) ->
  isEverythingDisabled type tree
  = (all_default (values (getUserDefaultValues type tree))
     || (forallb off_level (values (getUserDefaultValues type tree))
         && forallb off_level (parentLevels type tree)))%bool.
Proof.
  intros Huser Hparent. unfold isEverythingDisabled.
  rewrite (decideDefault_by_max_level _ _ Huser Hparent). unfold two_stage.
  destruct (max_level (values (getUserDefaultValues type tree)))
    as [m|] eqn:Em.
  - destruct (max_level_thresholds _ _ Huser Em) as [-> ->].
    pose proof (max_level_is_level _ _ Huser Em) as Hm.
    level_cases Hm; cbn [String.eqb Ascii.eqb Bool.eqb off_level orb andb];
      try reflexivity.
    apply second_stage_disabled, Hparent.
  - destruct (values (getUserDefaultValues type tree)); [|discriminate].
    cbn [all_default forallb orb andb].
    apply second_stage_disabled, Hparent.
Qed.

Lemma isEverythingDisabled_on_levels_witness :
  all_levels
    (values
       (getUserDefaultValues "alerts"
          [("alerts",
            [("user", [("me", [("email", "default"); ("slack", "default")])]);
             ("project", [("1", [("email", "always"); ("slack", "never")])])])]))
  /\ all_levels
       (parentLevels "alerts"
          [("alerts",
            [("user", [("me", [("email", "default"); ("slack", "default")])]);
             ("project", [("1", [("email", "always"); ("slack", "never")])])])])
  /\ isEverythingDisabled "alerts"
       [("alerts",
         [("user", [("me", [("email", "default"); ("slack", "default")])]);
          ("project", [("1", [("email", "always"); ("slack", "never")])])])]
     = true.
Proof.
  assert (Huser :
            all_levels
              (values
                 (getUserDefaultValues "alerts"
                    [("alerts",
                      [("user",
                        [("me", [("email", "default"); ("slack", "default")])]);
                       ("project",
                        [("1", [("email", "always"); ("slack", "never")])])])])))
    by (repeat constructor).
  assert (Hparent :
            all_levels
              (parentLevels "alerts"
                 [("alerts",
                   [("user",
                     [("me", [("email", "default"); ("slack", "default")])]);
                    ("project",
                     [("1", [("email", "always"); ("slack", "never")])])])]))
    by (repeat constructor).
  split; [exact Huser|]. split; [exact Hparent|].
  exact (isEverythingDisabled_on_levels "alerts" _ Huser Hparent).
Defined.

(** X15: on trees whose values are levels, the decision is one of the five
    levels; in particular it is never the empty string. *)
Theorem decideDefault_is_level type tree :
  all_levels (values (getUserDefaultValues type tree)) ->
  all_levels (parentLevels type tree) ->
  is_level (decideDefault type tree) = true.
Proof.
  intros Huser Hparent.
  rewrite (decideDefault_by_max_level _ _ Huser Hparent).
  assert (Hsecond : is_level (second_stage type tree) = true).
  { unfold second_stage.
    destruct (max_level (parentLevels type tree)) as [p|] eqn:Ep;
      [|reflexivity].
    pose proof (max_level_is_level _ _ Hparent Ep) as Hp.
    level_cases Hp; reflexivity. }
  unfold two_stage.
  destruct (max_level (values (getUserDefaultValues type tree)))
    as [m|] eqn:Em; [|exact Hsecond].
  destruct (m =? "never"); [exact Hsecond|].
  exact (max_level_is_level _ _ Huser Em).
Qed.

Lemma decideDefault_is_level_witness :
  all_levels (values (getUserDefaultValues "workflow" []))
  /\ all_levels (parentLevels "workflow" [])
  /\ is_level (decideDefault "workflow" []) = true.
Proof.
  assert (Huser : all_levels (values (getUserDefaultValues "workflow" [])))
    by (repeat constructor).
  assert (Hparent : all_levels (parentLevels "workflow" []))
    by constructor.
  split; [exact Huser|]. split; [exact Hparent|].
  exact (decideDefault_is_level "workflow" [] Huser Hparent).
Defined.

(** ** More on the default patch *)

Lemma default_patch type tree changedData parentIds :
  getStateToPutForDefault type tree changedData parentIds
  = [(type,
      if strictEquals (firstValue changedData) "never"
      then
        obj_set (getParentKey type)
          (forProviders parentIds
             (forProviders (defaultProviders type tree) (Some "default")))
          [("user",
            [("me",
              forProviders (defaultProviders type tree)
                (firstValue changedData))])]
      else
        [("user",
          [("me",
            forProviders (defaultProviders type tree)
              (firstValue changedData))])])].
Proof.
  unfold getStateToPutForDefault, defaultProviders.
  destruct (getCurrentProviders type tree); reflexivity.
Qed.

Lemma defaultProviders_head type tree :
  exists provider, includes (defaultProviders type tree) provider = true.
Proof.
  unfold defaultProviders.
  destruct (getCurrentProviders type tree) as [|p ps].
  - exists "email". reflexivity.
  - exists p. apply includes_in. left. reflexivity.
Qed.

(** X16: for every new value, the default patch changes at least one
    provider in the user entry ["me"], and it holds an entry for a parent
    id, under the grouping scope of the type, exactly when the new value
    is ["never"] and the id is among the given parent ids. *)
Theorem getStateToPutForDefault_entries type tree changedData parentIds :
  (exists provider,
      lookup4 (getStateToPutForDefault type tree changedData parentIds)
        type "user" "me" provider
      = Some (firstValue changedData))
  /\ forall parentId,
      lookup3 (getStateToPutForDefault type tree changedData parentIds)
        type (getParentKey type) parentId
      = if (strictEquals (firstValue changedData) "never"
            && includes parentIds parentId)%bool
        then Some (forProviders (defaultProviders type tree) (Some "default"))
        else None.
Proof.
  rewrite default_patch. split.
  - destruct (defaultProviders_head type tree) as [provider Hp].
    exists provider. unfold lookup4. cbn [lookup]. rewrite String.eqb_refl.
    destruct (strictEquals (firstValue changedData) "never").
    + rewrite lookup_obj_set, getParentKey_not_user.
      cbn [lookup String.eqb Ascii.eqb Bool.eqb].
      rewrite lookup_forProviders, Hp. reflexivity.
    + cbn [lookup String.eqb Ascii.eqb Bool.eqb].
      rewrite lookup_forProviders, Hp. reflexivity.
  - intros parentId. unfold lookup3. cbn [lookup]. rewrite String.eqb_refl.
    destruct (strictEquals (firstValue changedData) "never"); cbn [andb].
    + rewrite lookup_obj_set, String.eqb_refl. cbn beta iota.
      rewrite lookup_forProviders. reflexivity.
    + cbn [lookup].
      destruct (getParentKey_cases type) as [-> | ->]; reflexivity.
Qed.

Lemma lookup_some_in_keys {A : Type} k (o : obj A) v :
  lookup k o = Some v -> In k (keys o).
Proof.
  intros H. apply has_own_in. unfold has_own. rewrite H. reflexivity.
Qed.

(** X17: turning the default to ["never"] with the parent ids that
    [getParentIds] reads off the tree resets every stored parent: each id
    that has a provider mapping under the grouping scope of the type is
    mapped to ["default"] for the providers of the patch. *)
Theorem getStateToPutForDefault_resets_stored_parents
    type tree changedData parentId settingsByProvider :
  firstValue changedData = Some "never" ->
  lookup3 tree type (getParentKey type) parentId = Some settingsByProvider ->
  lookup3
    (getStateToPutForDefault type tree changedData (getParentIds type tree))
    type (getParentKey type) parentId
  = Some (forProviders (defaultProviders type tree) (Some "default")).
Proof.
  intros Hnew Hstored.
  assert (Hin : includes (getParentIds type tree) parentId = true).
  { apply includes_in. unfold getParentIds, scopeData.
    unfold lookup3 in Hstored.
    destruct (lookup type tree) as [a|]; [|discriminate].
    destruct (lookup (getParentKey type) a) as [b|]; [|discriminate].
    cbn [or_empty]. exact (lookup_some_in_keys _ _ _ Hstored). }
  rewrite default_patch, Hnew. cbn [strictEquals]. rewrite String.eqb_refl.
  unfold lookup3. cbn [lookup]. rewrite String.eqb_refl.
  rewrite lookup_obj_set, String.eqb_refl. cbn beta iota.
  rewrite lookup_forProviders, Hin. reflexivity.
Qed.

Lemma getStateToPutForDefault_resets_stored_parents_witness :
  firstValue [("default", "never")] = Some "never"
  /\ lookup3
       [("alerts",
         [("user", [("me", [("email", "always"); ("slack", "never")])]);
          ("project", [("10", [("email", "never"); ("slack", "always")])])])]
       "alerts" (getParentKey "alerts") "10"
     = Some [("email", "never"); ("slack", "always")]
  /\ lookup3
       (getStateToPutForDefault "alerts"
          [("alerts",
            [("user", [("me", [("email", "always"); ("slack", "never")])]);
             ("project",
              [("10", [("email", "never"); ("slack", "always")])])])]
          [("default", "never")]
          (getParentIds "alerts"
             [("alerts",
               [("user", [("me", [("email", "always"); ("slack", "never")])]);
                ("project",
                 [("10", [("email", "never"); ("slack", "always")])])])]))
       "alerts" "project" "10"
     = Some [("email", Some "default")].
Proof.
  split; [reflexivity|]. split; [reflexivity|].
  exact (getStateToPutForDefault_resets_stored_parents "alerts"
           [("alerts",
             [("user", [("me", [("email", "always"); ("slack", "never")])]);
              ("project",
               [("10", [("email", "never"); ("slack", "always")])])])]
           [("default", "never")] "10"
           [("email", "never"); ("slack", "always")] eq_refl eq_refl).
Defined.

(** X18: on the empty tree the provider patch is the single user entry
    ["me"], which maps every requested provider, known or not, to the
    fallback value of the type and holds no other provider. *)
Theorem getStateToPutForProvider_on_empty_tree type changedData provider :
  lookup "provider" changedData = Some provider ->
  exists patch,
    getStateToPutForProvider type [] changedData = Ok patch
    /\ (forall scopeType scopeId,
          lookup3 patch type scopeType scopeId
          = if ((scopeType =? "user") && (scopeId =? "me"))%bool
            then Some (forProviders (split "+" provider)
                         (getFallBackValue type))
            else None)
    /\ forall requested,
        lookup4 patch type "user" "me" requested
        = if includes (split "+" provider) requested
          then Some (getFallBackValue type)
          else None.
Proof.
  intros Hp. eexists.
  split; [apply (getStateToPutForProvider_empty_tree _ _ _ Hp)|]. split.
  - intros st id. unfold lookup3. cbn [lookup]. rewrite String.eqb_refl.
    cbn [lookup].
    destruct (st =? "user"); [|reflexivity].
    cbn [lookup andb].
    destruct (id =? "me"); reflexivity.
  - intros requested. unfold lookup4.
    cbn [lookup String.eqb Ascii.eqb Bool.eqb]. rewrite String.eqb_refl.
    apply lookup_forProviders.
Qed.

Lemma getStateToPutForProvider_on_empty_tree_witness :
  lookup "provider" [("provider", "email+pagerduty")]
  = Some "email+pagerduty"
  /\ exists patch,
      getStateToPutForProvider "workflow" [] [("provider", "email+pagerduty")]
      = Ok patch
      /\ (forall scopeType scopeId,
            lookup3 patch "workflow" scopeType scopeId
            = if ((scopeType =? "user") && (scopeId =? "me"))%bool
              then Some [("email", "subscribe_only");
                         ("pagerduty", "subscribe_only")]
              else None)
      /\ forall requested,
          lookup4 patch "workflow" "user" "me" requested
          = if includes ["email"; "pagerduty"] requested
            then Some "subscribe_only"
            else None.
Proof.
  split; [reflexivity|].
  exact (getStateToPutForProvider_on_empty_tree "workflow"
           [("provider", "email+pagerduty")] "email+pagerduty" eq_refl).
Defined.
